(** * curl-to-go: the curl option extractor (extract_curl_args.py)

    A shallow embedding of the script that reads curl's option table
    (src/tool_getparam.c), normalises the aliases and rewrites the generated
    region of curl-to-go.js, with the properties of its specification.

    Strings are Rocq strings read as sequences of code points below 256;
    Python dicts, whose iteration order matters here, are association lists
    updated in place; a file object is the list of the lines it yields and
    a loop that leaves it half read returns the lines that remain.  The
    diagnostics printed on stderr do not change any returned value and are
    left out. *)

From Stdlib Require Import String Ascii List Bool Arith Lia.
Import ListNotations.
Open Scope string_scope.

(** ** Python's string operations *)

Module Py.

(** [str.isspace] on one code point below 256. *)
Definition is_space (c : ascii) : bool :=
  let n := nat_of_ascii c in
  (((9 <=? n) && (n <=? 13)) || ((28 <=? n) && (n <=? 32))
   || (n =? 133) || (n =? 160))%nat.

Definition rev (s : string) : string :=
  string_of_list_ascii (List.rev (list_ascii_of_string s)).

Fixpoint lstrip_by (p : ascii -> bool) (s : string) : string :=
  match s with
  | EmptyString => EmptyString
  | String c t => if p c then lstrip_by p t else s
  end.

Definition rstrip_by (p : ascii -> bool) (s : string) : string :=
  rev (lstrip_by p (rev s)).

Definition strip_by (p : ascii -> bool) (s : string) : string :=
  rstrip_by p (lstrip_by p s).

Fixpoint mem_char (c : ascii) (chars : string) : bool :=
  match chars with
  | EmptyString => false
  | String d t => Ascii.eqb c d || mem_char c t
  end.

(** [s.strip()] *)
Definition strip (s : string) : string := strip_by is_space s.

(** [s.strip(chars)] *)
Definition strip_chars (chars s : string) : string :=
  strip_by (fun c => mem_char c chars) s.

(** [s.startswith(p)] *)
Definition startswith (p s : string) : bool := String.prefix p s.

(** [s.endswith(p)] *)
Definition endswith (p s : string) : bool := String.prefix (rev p) (rev s).

(** [sub in s] *)
Fixpoint contains (sub s : string) : bool :=
  String.prefix sub s ||
  match s with
  | EmptyString => false
  | String _ t => contains sub t
  end.

Fixpoint drop (n : nat) (s : string) : string :=
  match n, s with
  | S k, String _ t => drop k t
  | _, _ => s
  end.

(** [s.removeprefix(p)] *)
Definition removeprefix (p s : string) : string :=
  if String.prefix p s then drop (String.length p) s else s.

(** [s.split(sep)] for a separator that is not empty (the script only
    splits on the two constants "/*" and ","): [skip] counts the characters
    of a separator just matched that are still to be passed over, [cur] is
    the field being read. *)
Fixpoint split_go (sep : string) (skip : nat) (cur s : string) : list string :=
  match s with
  | EmptyString => [cur]
  | String c t =>
      match skip with
      | S k => split_go sep k cur t
      | O =>
          if String.prefix sep s
          then cur :: split_go sep (String.length sep - 1) EmptyString t
          else split_go sep 0 (cur ++ String c EmptyString) t
      end
  end.

Definition split (sep s : string) : list string :=
  split_go sep 0 EmptyString s.

(** [str.lower] on one code point below 256. *)
Definition lower_char (c : ascii) : ascii :=
  let n := nat_of_ascii c in
  if (((65 <=? n) && (n <=? 90))
      || ((192 <=? n) && (n <=? 222) && negb (n =? 215)))%nat
  then ascii_of_nat (n + 32) else c.

Fixpoint lower (s : string) : string :=
  match s with
  | EmptyString => EmptyString
  | String c t => String (lower_char c) (lower t)
  end.

(** [str.isalpha] on one code point below 256, and on a string (false on
    the empty string). *)
Definition is_alpha_char (c : ascii) : bool :=
  let n := nat_of_ascii c in
  (((65 <=? n) && (n <=? 90)) || ((97 <=? n) && (n <=? 122))
   || (n =? 170) || (n =? 181) || (n =? 186)
   || ((192 <=? n) && (n <=? 214)) || ((216 <=? n) && (n <=? 246))
   || (248 <=? n))%nat.

Fixpoint all_chars (p : ascii -> bool) (s : string) : bool :=
  match s with
  | EmptyString => true
  | String c t => p c && all_chars p t
  end.

Definition isalpha (s : string) : bool :=
  negb (String.eqb s EmptyString) && all_chars is_alpha_char s.

(** [x in l] for a list of strings. *)
Definition mem (x : string) (l : list string) : bool :=
  existsb (String.eqb x) l.

(** [l.insert(i, x)] for an index that is not negative: an index past the
    end appends. *)
Definition insert {A : Type} (i : nat) (x : A) (l : list A) : list A :=
  (firstn i l ++ x :: skipn i l)%list.

End Py.

(** ** Ordered dicts with string keys *)

Definition dict (V : Type) : Type := list (string * V).

(** [d[k] = v]: a key already present keeps its place. *)
Fixpoint dict_set {V : Type} (k : string) (v : V) (d : dict V) : dict V :=
  match d with
  | [] => [(k, v)]
  | (k', v') :: t =>
      if String.eqb k k' then (k, v) :: t else (k', v') :: dict_set k v t
  end.

Fixpoint dict_get {V : Type} (k : string) (d : dict V) : option V :=
  match d with
  | [] => None
  | (k', v) :: t => if String.eqb k k' then Some v else dict_get k t
  end.

Definition keys {V : Type} (d : dict V) : list string := map fst d.
Definition values {V : Type} (d : dict V) : list V := map snd d.

(** ** Errors *)

Inductive error : Type :=
| ValueError_unpack (fields : nat)
    (* a row that does not split into three fields *)
| ValueError_letter (lname : string)
    (* "letter form of --lname must be 1 or 2 characters long" *)
| ValueError_desc (lname desc : string)
    (* "unknown desc for --lname: desc" *)
| KeyError (key : string)
    (* DUPES[key] for a key that is not in the table *)
| ValueError_start
    (* the BEGIN marker is not in the output file *)
| ValueError_end.
    (* the END marker is not in the output file *)

Inductive result (A : Type) : Type :=
| Ok (a : A)
| Err (e : error).
Arguments Ok {A} a.
Arguments Err {A} e.

Definition bind {A B : Type} (r : result A) (k : A -> result B) : result B :=
  match r with
  | Ok a => k a
  | Err e => Err e
  end.

Notation "x <- r ;; k" := (bind r (fun x => k))
  (at level 61, r at next level, right associativity).
Notation "' p <- r ;; k" := (bind r (fun x => let p := x in k))
  (at level 61, p pattern, r at next level, right associativity).

(** ** Constants of the script *)

Definition JS_PARAMS_START : string := "BEGIN GENERATED CURL OPTIONS".
Definition JS_PARAMS_END : string := "END GENERATED CURL OPTIONS".

Definition OPTS_START : string := "struct LongShort aliases[]= {".
Definition OPTS_END : string := "};".

Definition BOOL_TYPES : list string := ["bool"; "none"].
Definition STR_TYPES : list string := ["string"; "filename"].
Definition ALIAS_TYPES : list string := (BOOL_TYPES ++ STR_TYPES)%list.

Definition DUPES : dict string :=
  [ ("krb", "krb");
    ("krb4", "krb");
    ("ftp-ssl", "ssl");
    ("ssl", "ssl");
    ("ftp-ssl-reqd", "ssl-reqd");
    ("ssl-reqd", "ssl-reqd");
    ("proxy-service-name", "proxy-service-name");
    ("socks5-gssapi-service", "proxy-service-name") ].

(** ** Aliases

    An alias is a dict with the keys letter, lname and type, then name and
    expand when they have been added: the keys always come in this order,
    so a record with two optional fields holds the dict and its order. *)

Record alias : Type := mkAlias {
  letter : string;
  lname : string;
  type_ : string;
  name : option string;
  expand : option bool
}.

Definition raw_alias (l n t : string) : alias := mkAlias l n t None None.

Definition set_name (a : alias) (n : string) : alias :=
  mkAlias (letter a) (lname a) (type_ a) (Some n) (expand a).

Definition set_type (a : alias) (t : string) : alias :=
  mkAlias (letter a) (lname a) t (name a) (expand a).

(** [alias.get("name", alias["lname"])] *)
Definition get_name (a : alias) : string :=
  match name a with
  | Some n => n
  | None => lname a
  end.

Definition quote_char : string := String "034"%char EmptyString.

(** ** parse_aliases *)

(** The first loop of [parse_aliases]: reads lines up to and including the
    first one that contains [OPTS_START]; what is left of the file. *)
Fixpoint skip_to_start (lines : list string) : list string :=
  match lines with
  | [] => []
  | line :: rest =>
      if Py.contains OPTS_START line then rest else skip_to_start rest
  end.

(** One row of the table, from the stripped line to the alias. *)
Definition parse_row (line : string) : result alias :=
  let fields :=
    Py.split ","
      (Py.strip_chars "{},"
         (Py.strip (hd EmptyString (Py.split "/*" line)))) in
  match fields with
  | [letter0; lname0; desc] =>
      let letter := Py.strip_chars quote_char (Py.strip letter0) in
      let lname := Py.strip_chars quote_char (Py.strip lname0) in
      let type_ := Py.lower (Py.removeprefix "ARG_" (Py.strip desc)) in
      let type_ := if String.eqb type_ "filename" then "string" else type_ in
      (* 1 > len(letter) > 2 *)
      if ((String.length letter <? 1) && (2 <? String.length letter))%nat
      then Err (ValueError_letter lname)
      else if negb (Py.mem type_ ALIAS_TYPES)
      then Err (ValueError_desc lname desc)
      else Ok (raw_alias letter lname type_)
  | _ => Err (ValueError_unpack (List.length fields))
  end.

(** The second loop of [parse_aliases], over what the first loop left. *)
Fixpoint parse_rows (aliases : dict alias) (lines : list string)
  : result (dict alias) :=
  match lines with
  | [] => Ok aliases
  | line :: rest =>
      let line := Py.strip line in
      if Py.endswith OPTS_END line then Ok aliases
      else if negb (Py.startswith "{" (Py.strip line))
      then parse_rows aliases rest
      else
        a <- parse_row line ;;
        parse_rows (dict_set (lname a) a aliases) rest
  end.

Definition parse_aliases (lines : list string) : result (list alias) :=
  aliases <- parse_rows [] (skip_to_start lines) ;;
  Ok (values aliases).

(** ** fill_out_aliases *)

(** [Counter(a["letter"] for a in aliases)[l]] *)
Definition letter_count (aliases : list alias) (l : string) : nat :=
  count_occ string_dec (map letter aliases) l.

(** [lname.removeprefix("no-").removeprefix("disable-")] *)
Definition without_no (lname : string) : string :=
  Py.removeprefix "disable-" (Py.removeprefix "no-" lname).

(** First step of the loop body: the name of an option that is already a
    negation. *)
Definition strip_negation (a : alias) : alias :=
  if Py.mem (type_ a) BOOL_TYPES then
    if negb (String.eqb (lname a) (without_no (lname a)))
    then set_name a (without_no (lname a))
    else a
  else a.

(** Second step: the name of an option whose letter is used more than
    once, from [DUPES]. *)
Definition resolve_dupe (count : string -> nat) (a : alias) : result alias :=
  if (1 <? count (letter a))%nat then
    match dict_get (lname a) DUPES with
    | None => Err (KeyError (lname a))
    | Some candidate =>
        if negb (String.eqb (lname a) candidate)
        then Ok (set_name a candidate)
        else Ok a
    end
  else Ok a.

(** The --no-OPTION counterpart of an alias. *)
Definition make_no_alias (a : alias) : alias :=
  {| letter := letter a;
     lname := "no-" ++ lname a;
     type_ := type_ a;
     name := Some (get_name a);
     expand := Some false |}.

(** Third step: the alias as the loop leaves it in the list, and what the
    loop appends to [no_aliases] for it. *)
Definition negate (a : alias) : alias * option alias :=
  if String.eqb (type_ a) "bool" then (a, Some (make_no_alias a))
  else if String.eqb (type_ a) "none" then (set_type a "bool", None)
  else (a, None).

(** The first loop of [fill_out_aliases] from index [idx] on: the aliases
    as mutated in place, and [no_aliases]. *)
Fixpoint fill_loop (count : string -> nat) (idx : nat) (aliases : list alias)
  : result (list alias * list (nat * alias)) :=
  match aliases with
  | [] => Ok ([], [])
  | alias :: rest =>
      a <- resolve_dupe count (strip_negation alias) ;;
      let (a', no) := negate a in
      r <- fill_loop count (S idx) rest ;;
      Ok (a' :: fst r,
          match no with
          | Some no_alias => (idx, no_alias) :: snd r
          | None => snd r
          end)
  end.

(** The second loop: [aliases.insert(insert_idx + i + 1, no_alias)] for the
    [i]-th pair of [no_aliases]. *)
Fixpoint insert_all (i : nat) (no_aliases : list (nat * alias))
  (aliases : list alias) : list alias :=
  match no_aliases with
  | [] => aliases
  | (insert_idx, no_alias) :: rest =>
      insert_all (S i) rest (Py.insert (insert_idx + i + 1) no_alias aliases)
  end.

Definition fill_out_aliases (aliases : list alias) : result (list alias) :=
  r <- fill_loop (letter_count aliases) 0 aliases ;;
  Ok (insert_all 0 (snd r) (fst r)).

(** ** split *)

Inductive value : Type :=
| VStr (s : string)
| VBool (b : bool).

(** [alias.items()] *)
Definition items (a : alias) : dict value :=
  ([("letter", VStr (letter a)); ("lname", VStr (lname a));
    ("type", VStr (type_ a))]
   ++ match name a with Some n => [("name", VStr n)] | None => [] end
   ++ match expand a with Some b => [("expand", VBool b)] | None => [] end)%list.

(** [{k: v for k, v in alias.items() if k not in ["letter", "lname"]}] *)
Definition long_value (a : alias) : dict value :=
  filter (fun kv => negb (Py.mem (fst kv) ["letter"; "lname"])) (items a).

(** What an alias writes in [short_args]. *)
Definition short_value (a : alias) : string :=
  let alias_name := get_name a in
  if String.eqb (letter a) "N" then "no-" ++ alias_name else alias_name.

Definition split_step (acc : dict (dict value) * dict string) (a : alias)
  : dict (dict value) * dict string :=
  let long_args := dict_set (lname a) (long_value a) (fst acc) in
  if (String.length (letter a) =? 1)%nat
  then (long_args, dict_set (letter a) (short_value a) (snd acc))
  else (long_args, snd acc).

Definition split (aliases : list alias) : dict (dict value) * dict string :=
  fold_left split_step aliases ([], []).

(** ** format_as_js and the rewriting of the output file *)

Definition tab : string := String "009"%char EmptyString.
Definition newline : string := String "010"%char EmptyString.

Inductive opt : Type :=
| ODict (d : dict value)
| OStr (s : string).

Section Emitter.

(** Python's [repr] of a string, which the script takes from the language. *)
Variable py_repr : string -> string.

Definition quote (key : string) : string :=
  if Py.isalpha key then key else py_repr key.

Definition val_to_js (val : value) : string :=
  match val with
  | VStr s => py_repr s
  | VBool b => if b then "true" else "false"
  end.

Definition format_opt (top_key : string) (o : opt) : string :=
  match o with
  | ODict d =>
      let vals := map (fun kv => quote (fst kv) ++ ": " ++ val_to_js (snd kv)) d in
      tab ++ tab ++ py_repr top_key ++ ": {" ++ String.concat ", " vals ++ "},"
  | OStr s =>
      tab ++ tab ++ py_repr top_key ++ ": " ++ val_to_js (VStr s) ++ ","
  end.

Definition format_as_js (d : dict opt) (var_name : string) : list string :=
  let first := tab ++ "var " ++ var_name ++ " = {" in
  let last := tab ++ "};" in
  (first :: map (fun kv => format_opt (fst kv) (snd kv)) d ++ [last])%list.

Definition js_params_lines (long_args : dict (dict value))
  (short_args : dict string) : list string :=
  (format_as_js (map (fun kv => (fst kv, ODict (snd kv))) long_args) "longOptions"
   ++ [EmptyString]
   ++ format_as_js (map (fun kv => (fst kv, OStr (snd kv))) short_args) "shortOptions")%list.

End Emitter.

(** The loop that copies the output file up to and including the first
    line with the BEGIN marker: the lines copied and the rest of the file,
    or nothing when the file ends first (the loop's else branch). *)
Fixpoint copy_to_start (f : list string) : option (list string * list string) :=
  match f with
  | [] => None
  | line :: rest =>
      if Py.contains JS_PARAMS_START line then Some ([line], rest)
      else match copy_to_start rest with
           | Some (copied, rest') => Some (line :: copied, rest')
           | None => None
           end
  end.

(** The loop that passes over the old region: the first line with the END
    marker and the rest of the file. *)
Fixpoint skip_to_end (f : list string) : option (string * list string) :=
  match f with
  | [] => None
  | line :: rest =>
      if Py.contains JS_PARAMS_END line then Some (line, rest)
      else skip_to_end rest
  end.

(** [new_lines], from the generated lines and the lines of the output
    file. *)
Definition splice (params_lines f : list string) : result (list string) :=
  match copy_to_start f with
  | None => Err ValueError_start
  | Some (head, f1) =>
      match skip_to_end f1 with
      | None => Err ValueError_end
      | Some (end_line, f2) =>
          let generated := map (fun l => l ++ newline) params_lines in
          Ok (head ++ generated ++ end_line :: f2)%list
      end
  end.

(** The script's main block after the branch check: from the lines of
    tool_getparam.c and of curl-to-go.js to the text written back. *)
Definition main (py_repr : string -> string) (input_file output_file : list string)
  : result string :=
  raw <- parse_aliases input_file ;;
  aliases <- fill_out_aliases raw ;;
  let (long_args, short_args) := split aliases in
  new_lines <- splice (js_params_lines py_repr long_args short_args) output_file ;;
  Ok (String.concat EmptyString new_lines).

(** ** The normaliser as a map over the raw aliases

    What one pass of the loop of [fill_out_aliases] does to one alias, and
    the whole function as these steps flattened: the form in which the
    properties below are proved. *)

Definition normalize_one (count : string -> nat) (a : alias)
  : result (alias * option alias) :=
  a1 <- resolve_dupe count (strip_negation a) ;;
  Ok (negate a1).

Fixpoint normalize_all (count : string -> nat) (aliases : list alias)
  : result (list (alias * option alias)) :=
  match aliases with
  | [] => Ok []
  | a :: rest =>
      x <- normalize_one count a ;;
      r <- normalize_all count rest ;;
      Ok (x :: r)
  end.

Definition emit (x : alias * option alias) : list alias :=
  match snd x with
  | Some no_alias => [fst x; no_alias]
  | None => [fst x]
  end.

Fixpoint no_aliases_from (idx : nat) (steps : list (alias * option alias))
  : list (nat * alias) :=
  match steps with
  | [] => []
  | (_, Some no_alias) :: rest => (idx, no_alias) :: no_aliases_from (S idx) rest
  | (_, None) :: rest => no_aliases_from (S idx) rest
  end.

(** Where the alias at index [i] of the raw sequence stands in the
    normalised one: every alias of type bool before it has taken two
    places. *)
Fixpoint position (raw : list alias) (i : nat) : nat :=
  match i, raw with
  | S k, a :: rest =>
      (if String.eqb (type_ a) "bool" then 2 else 1) + position rest k
  | _, _ => 0
  end.

(** ** Example inputs *)

Definition table_row (l n desc : string) : string :=
  "  {" ++ quote_char ++ l ++ quote_char ++ ", "
        ++ quote_char ++ n ++ quote_char ++ ", " ++ desc ++ "}," ++ newline.

Definition table (rows : list string) : list string :=
  let first := "static const struct LongShort aliases[]= {" ++ newline in
  let last := "};" ++ newline in
  (first :: rows ++ [last])%list.

Definition version_table : list string :=
  table [table_row "V" "version" "ARG_NONE"].

Definition verbose_table : list string :=
  table [table_row "v" "verbose" "ARG_BOOL"].

Definition long_letter_table : list string :=
  table [table_row "abc" "foo" "ARG_BOOL"].

(** Two raw aliases with one letter: both in DUPES, and one that is not. *)
Definition ssl_rows : list alias :=
  [raw_alias "Fa" "ftp-ssl" "bool"; raw_alias "Fa" "ssl" "bool"].

Definition tls_rows : list alias :=
  [raw_alias "Fa" "tls" "bool"; raw_alias "Fa" "ssl" "bool"].

(** Python's [repr] on strings of letters, digits and dashes, for the
    examples. *)
Definition repr_plain (s : string) : string := "'" ++ s ++ "'".

(** An output file whose old region holds a line with the END marker. *)
Definition js_begin : string := "// BEGIN GENERATED CURL OPTIONS" ++ newline.
Definition js_end : string := "// END GENERATED CURL OPTIONS" ++ newline.
Definition js_stale : string := "stale" ++ newline.

Definition two_end_markers : list string :=
  [js_begin; js_end; js_stale; js_end].

(** The text the script is to write for an output file made of the lines
    [A], the line [s] with the BEGIN marker, an old region, the line [e]
    with the END marker and the lines [B]. *)
Definition spliced_text (py_repr : string -> string) (aliases : list alias)
  (A : list string) (s e : string) (B : list string) : string :=
  let tables :=
    js_params_lines py_repr (fst (split aliases)) (snd (split aliases)) in
  String.concat EmptyString A ++ s
  ++ String.concat EmptyString (map (fun l => l ++ newline) tables)
  ++ e ++ String.concat EmptyString B.

(** ** Properties of the stages *)

(** What every record of the extractor's output satisfies: one of the three
    types that pass the check, and no name or expand key yet. *)
Definition raw_form (a : alias) : Prop :=
  name a = None /\ expand a = None.

Definition extracted (a : alias) : Prop :=
  (type_ a = "bool" \/ type_ a = "none" \/ type_ a = "string") /\ raw_form a.

(** The invariant of the dict that [parse_rows] builds. *)
Definition dict_inv (d : dict alias) : Prop :=
  NoDup (keys d)
  /\ Forall (fun kv => fst kv = lname (snd kv) /\ extracted (snd kv)) d.

(** [s] is the --no-OPTION counterpart of [a]. *)
Definition no_alias_of (a s : alias) : Prop :=
  letter s = letter a /\ type_ s = type_ a
  /\ lname s = "no-" ++ lname a
  /\ name s = Some (match name a with Some n => n | None => lname a end)
  /\ expand s = Some false.

(** Every alias of type bool of the sequence that is not itself a
    --no-OPTION (those are the ones with an expand key) is followed by its
    --no-OPTION. *)
Definition every_bool_negated (out : list alias) : Prop :=
  forall k a,
    nth_error out k = Some a -> type_ a = "bool" -> expand a = None ->
    exists s, nth_error out (S k) = Some s /\ no_alias_of a s.

(** No key of [long_args] and no key of [short_args] is written by two
    aliases of the sequence. *)
Definition one_writer_per_key (out : list alias) : Prop :=
  NoDup (map lname out)
  /\ NoDup (map letter
             (filter (fun a => (String.length (letter a) =? 1)%nat) out)).

(** A normalised sequence reduced to raw form: the --no-OPTION entries
    dropped, and of the others the three keys of a raw alias kept. *)
Definition reduce_to_raw (out : list alias) : list alias :=
  map (fun a => raw_alias (letter a) (lname a) (type_ a))
    (filter (fun a => match expand a with Some _ => false | None => true end)
       out).

(** Normalising the reduced form of what normalising [raw] gave gives the
    same sequence again. *)
Definition renormalizes_to_itself (raw : list alias) : Prop :=
  forall out,
    fill_out_aliases raw = Ok out ->
    fill_out_aliases (reduce_to_raw out) = Ok out.

(** The entries of a normalised sequence that are not --no-OPTION
    entries. *)
Definition is_original (a : alias) : bool :=
  match expand a with Some _ => false | None => true end.

(** A line, once the newline is added, holds no END marker. *)
Definition no_end_marker (l : string) : Prop :=
  Py.contains JS_PARAMS_END (l ++ newline) = false.

(** The fields of a row, as [parse_aliases] splits the stripped line:
    [line.split("/*")[0].strip().strip("{},").split(",")]. *)
Definition row_fields (line : string) : list string :=
  Py.split ","
    (Py.strip_chars "{},"
       (Py.strip (hd EmptyString (Py.split "/*" line)))).

(** A line that the second loop of [parse_aliases] takes for a row, and a
    line at which it stops. *)
Definition is_row (line : string) : bool :=
  Py.startswith "{" (Py.strip (Py.strip line)).

Definition ends_table (line : string) : bool :=
  Py.endswith OPTS_END (Py.strip line).

(** What reducing leaves of a raw alias that was normalised. *)
Definition retyped (a : alias) : alias :=
  raw_alias (letter a) (lname a)
    (if String.eqb (type_ a) "none" then "bool" else type_ a).

(** * Proofs *)

(** ** Strings *)

Lemma prefix_app (p s : string) : String.prefix p (p ++ s) = true.
Proof.
  induction p as [|c p IH]; simpl.
  - destruct s; reflexivity.
  - destruct (ascii_dec c c) as [_|Hne]; [exact IH | now elim Hne].
Qed.

Lemma drop_app (p s : string) : Py.drop (String.length p) (p ++ s) = s.
Proof.
  induction p as [|c p IH]; simpl.
  - destruct s; reflexivity.
  - exact IH.
Qed.

Lemma removeprefix_app (p s : string) : Py.removeprefix p (p ++ s) = s.
Proof.
  unfold Py.removeprefix. rewrite prefix_app. apply drop_app.
Qed.

Lemma append_assoc (a b c : string) : ((a ++ b) ++ c = a ++ (b ++ c))%string.
Proof.
  induction a as [|x a IH]; simpl; [reflexivity | now rewrite IH].
Qed.

Lemma append_nil_r (a : string) : (a ++ EmptyString)%string = a.
Proof.
  induction a as [|x a IH]; simpl; [reflexivity | now rewrite IH].
Qed.

Lemma append_inj_l (p a b : string) : (p ++ a = p ++ b)%string -> a = b.
Proof.
  induction p as [|c p IH]; simpl; intros H; [exact H|].
  injection H as H. auto.
Qed.

Lemma append_length (a b : string) :
  String.length (a ++ b) = String.length a + String.length b.
Proof.
  induction a as [|x a IH]; simpl; [reflexivity | now rewrite IH].
Qed.

Lemma no_prefix_neq (s : string) : s <> "no-" ++ s.
Proof.
  intros H. apply (f_equal String.length) in H.
  rewrite append_length in H. simpl in H. lia.
Qed.

Lemma concat_cons (x : string) (xs : list string) :
  String.concat EmptyString (x :: xs) = x ++ String.concat EmptyString xs.
Proof.
  destruct xs; simpl; [now rewrite append_nil_r | reflexivity].
Qed.

Lemma concat_app (xs ys : list string) :
  String.concat EmptyString (xs ++ ys)
  = String.concat EmptyString xs ++ String.concat EmptyString ys.
Proof.
  induction xs as [|x xs IH].
  - reflexivity.
  - change ((x :: xs) ++ ys)%list with (x :: (xs ++ ys))%list.
    rewrite !concat_cons, IH, append_assoc. reflexivity.
Qed.

(** ** Dicts *)

Lemma dict_get_set_same {V : Type} (k : string) (v : V) (d : dict V) :
  dict_get k (dict_set k v d) = Some v.
Proof.
  induction d as [|[k' v'] d IH]; simpl.
  - now rewrite String.eqb_refl.
  - destruct (String.eqb k k') eqn:E; simpl.
    + now rewrite String.eqb_refl.
    + now rewrite E.
Qed.

Lemma dict_get_set_other {V : Type} (k k0 : string) (v : V) (d : dict V) :
  k0 <> k -> dict_get k0 (dict_set k v d) = dict_get k0 d.
Proof.
  intros Hne. induction d as [|[k' v'] d IH]; simpl.
  - apply String.eqb_neq in Hne. now rewrite Hne.
  - destruct (String.eqb k k') eqn:E; simpl.
    + apply String.eqb_eq in E. subst k'.
      apply String.eqb_neq in Hne. now rewrite Hne.
    + destruct (String.eqb k0 k'); [reflexivity | exact IH].
Qed.

Lemma keys_dict_set_in {V : Type} (k k0 : string) (v : V) (d : dict V) :
  In k0 (keys (dict_set k v d)) <-> k0 = k \/ In k0 (keys d).
Proof.
  unfold keys. induction d as [|[k' v'] d IH]; simpl.
  - intuition.
  - destruct (String.eqb k k') eqn:E; simpl.
    + apply String.eqb_eq in E. subst k'. intuition.
    + rewrite IH. intuition.
Qed.

Lemma keys_dict_set_nodup {V : Type} (k : string) (v : V) (d : dict V) :
  NoDup (keys d) -> NoDup (keys (dict_set k v d)).
Proof.
  unfold keys. induction d as [|[k' v'] d IH]; simpl; intros Hd.
  - constructor; [intros [] | constructor].
  - inversion Hd as [|? ? Hnin Hd']; subst.
    destruct (String.eqb k k') eqn:E; simpl.
    + apply String.eqb_eq in E. subst k'. constructor; assumption.
    + constructor; [|auto].
      intros Hin. apply (keys_dict_set_in k k' v d) in Hin.
      destruct Hin as [->|Hin]; [|contradiction].
      now rewrite String.eqb_refl in E.
Qed.

Lemma values_dict_set_in {V : Type} (k : string) (v x : V) (d : dict V) :
  In x (values (dict_set k v d)) -> x = v \/ In x (values d).
Proof.
  unfold values. induction d as [|[k' v'] d IH]; simpl.
  - intuition.
  - destruct (String.eqb k k'); simpl; intuition.
Qed.

Lemma dict_set_Forall {V : Type} (P : string * V -> Prop) (k : string) (v : V)
  (d : dict V) :
  P (k, v) -> Forall P d -> Forall P (dict_set k v d).
Proof.
  intros Hkv Hd. induction Hd as [|[k' v'] d Hx Hd IH]; simpl.
  - constructor; [exact Hkv | constructor].
  - destruct (String.eqb k k'); constructor; assumption.
Qed.

(** ** The extractor *)

Lemma mem_alias_types (t : string) :
  Py.mem t ALIAS_TYPES = true ->
  t = "bool" \/ t = "none" \/ t = "string" \/ t = "filename".
Proof.
  unfold Py.mem, ALIAS_TYPES, BOOL_TYPES, STR_TYPES. simpl.
  rewrite !orb_true_iff, !String.eqb_eq. intuition discriminate.
Qed.

Lemma parse_row_extracted (line : string) (a : alias) :
  parse_row line = Ok a -> extracted a.
Proof.
  unfold parse_row.
  destruct (Py.split "," _) as [|f1 [|f2 [|f3 [|f4 fs]]]]; try discriminate.
  cbv zeta.
  destruct (andb _ _); [discriminate|].
  destruct (String.eqb _ "filename") eqn:F.
  - destruct (negb _); [discriminate|].
    intros H. injection H as <-. unfold extracted, raw_form. simpl. auto.
  - destruct (Py.mem _ ALIAS_TYPES) eqn:M; simpl; [|discriminate].
    intros H. injection H as <-. unfold extracted, raw_form. simpl.
    split; [|auto].
    apply mem_alias_types in M.
    destruct M as [M|[M|[M|M]]]; auto.
    rewrite M in F. discriminate.
Qed.

(** The letter check of [parse_row] cannot fail: no length is both below 1
    and above 2. *)
Lemma parse_row_no_letter_error (line lname0 : string) :
  parse_row line <> Err (ValueError_letter lname0).
Proof.
  unfold parse_row.
  destruct (Py.split "," _) as [|f1 [|f2 [|f3 [|f4 fs]]]]; try discriminate.
  cbv zeta.
  destruct (andb _ _) eqn:E.
  - apply andb_true_iff in E. destruct E as [E1 E2].
    apply Nat.ltb_lt in E1. apply Nat.ltb_lt in E2. lia.
  - destruct (negb _); discriminate.
Qed.

Lemma parse_rows_cons (d : dict alias) (line : string) (rest : list string) :
  parse_rows d (line :: rest)
  = if Py.endswith OPTS_END (Py.strip line) then Ok d
    else if negb (Py.startswith "{" (Py.strip (Py.strip line)))
    then parse_rows d rest
    else a <- parse_row (Py.strip line) ;;
         parse_rows (dict_set (lname a) a d) rest.
Proof.
  reflexivity.
Qed.

Lemma parse_rows_inv (lines : list string) :
  forall d d', parse_rows d lines = Ok d' -> dict_inv d -> dict_inv d'.
Proof.
  induction lines as [|line rest IH]; intros d d' H Hd.
  - injection H as <-. exact Hd.
  - rewrite parse_rows_cons in H.
    destruct (Py.endswith OPTS_END _).
    + injection H as <-. exact Hd.
    + destruct (negb _).
      * eapply IH; eassumption.
      * destruct (parse_row _) as [a|e] eqn:R; cbn [bind] in H;
          [|discriminate].
        eapply IH; [exact H|].
        destruct Hd as [Hk Hf]. split.
        -- apply keys_dict_set_nodup. exact Hk.
        -- apply dict_set_Forall; [|exact Hf].
           simpl. split; [reflexivity|].
           eapply parse_row_extracted. exact R.
Qed.

Lemma dict_inv_values (d : dict alias) :
  dict_inv d ->
  NoDup (map lname (values d)) /\ Forall extracted (values d).
Proof.
  intros [Hk Hf]. unfold keys, values in *.
  assert (E : map lname (map snd d) = map fst d).
  { clear Hk. induction Hf as [|[k v] d [Hx _] _ IH]; simpl in *;
      [reflexivity | now rewrite IH, Hx]. }
  rewrite E. split; [exact Hk|].
  clear E Hk. induction Hf as [|[k v] d [_ Hx] _ IH]; simpl;
    constructor; assumption.
Qed.

Lemma parse_aliases_extracted (lines : list string) (raw : list alias) :
  parse_aliases lines = Ok raw ->
  NoDup (map lname raw) /\ Forall extracted raw.
Proof.
  unfold parse_aliases.
  destruct (parse_rows _ _) as [d|e] eqn:P; simpl; [|discriminate].
  intros H. injection H as <-.
  apply dict_inv_values.
  eapply parse_rows_inv; [exact P|].
  split; constructor.
Qed.

(** What a row that parses gives, field by field. *)
Lemma parse_row_ok_fields (line : string) (a : alias) :
  parse_row line = Ok a ->
  exists f1 f2 desc,
    row_fields line = [f1; f2; desc]
    /\ letter a = Py.strip_chars quote_char (Py.strip f1)
    /\ lname a = Py.strip_chars quote_char (Py.strip f2)
    /\ type_ a
       = (if String.eqb
               (Py.lower (Py.removeprefix "ARG_" (Py.strip desc))) "filename"
          then "string"
          else Py.lower (Py.removeprefix "ARG_" (Py.strip desc))).
Proof.
  unfold parse_row. fold (row_fields line).
  destruct (row_fields line) as [|f1 [|f2 [|f3 [|f4 fs]]]]; try discriminate.
  cbv zeta.
  destruct (andb _ _); [discriminate|].
  destruct (negb _); [discriminate|].
  intros H. injection H as <-.
  exists f1, f2, f3. repeat split; reflexivity.
Qed.

Lemma skip_to_start_incl (lines : list string) (line : string) :
  In line (skip_to_start lines) -> In line lines.
Proof.
  induction lines as [|l rest IH]; simpl; [auto|].
  destruct (Py.contains OPTS_START l); intros H; [now right|].
  right. auto.
Qed.

(** Every record of the dict was parsed from a line that was read. *)
Lemma parse_rows_sources (lines : list string) :
  forall d d',
    parse_rows d lines = Ok d' ->
    forall a,
      In a (values d') ->
      In a (values d)
      \/ exists line, In line lines /\ parse_row (Py.strip line) = Ok a.
Proof.
  induction lines as [|line rest IH]; intros d d' H a Ha.
  - injection H as <-. now left.
  - rewrite parse_rows_cons in H.
    destruct (Py.endswith OPTS_END _).
    + injection H as <-. now left.
    + destruct (negb _).
      * destruct (IH _ _ H a Ha) as [Hd|(l & Hl & Hr)]; [now left|].
        right. exists l. split; [now right | exact Hr].
      * destruct (parse_row _) as [b|e] eqn:R; cbn [bind] in H;
          [|discriminate].
        destruct (IH _ _ H a Ha) as [Hd|(l & Hl & Hr)].
        -- apply values_dict_set_in in Hd. destruct Hd as [->|Hd].
           ++ right. exists line. split; [now left | exact R].
           ++ now left.
        -- right. exists l. split; [now right | exact Hr].
Qed.

Lemma parse_aliases_sources (lines : list string) (raw : list alias)
  (a : alias) :
  parse_aliases lines = Ok raw ->
  In a raw ->
  exists line, In line lines /\ parse_row (Py.strip line) = Ok a.
Proof.
  unfold parse_aliases.
  destruct (parse_rows _ _) as [d|e] eqn:P; cbn [bind]; [|discriminate].
  intros H Ha. injection H as <-.
  destruct (parse_rows_sources _ _ _ P a Ha) as [[]|(l & Hl & Hr)].
  exists l. split; [|exact Hr]. now apply skip_to_start_incl.
Qed.

Lemma keys_dict_set_grow {V : Type} (k k0 : string) (v : V) (d : dict V) :
  In k0 (keys d) -> In k0 (keys (dict_set k v d)).
Proof.
  intros H. apply keys_dict_set_in. now right.
Qed.

Lemma parse_rows_keys_grow (lines : list string) :
  forall d d' k,
    parse_rows d lines = Ok d' -> In k (keys d) -> In k (keys d').
Proof.
  induction lines as [|line rest IH]; intros d d' k H Hk.
  - injection H as <-. exact Hk.
  - rewrite parse_rows_cons in H.
    destruct (Py.endswith OPTS_END _).
    + injection H as <-. exact Hk.
    + destruct (negb _); [eapply IH; eassumption|].
      destruct (parse_row _) as [b|e] eqn:R; cbn [bind] in H;
        [|discriminate].
      eapply IH; [exact H|]. now apply keys_dict_set_grow.
Qed.

(** While the table is open, every row that is read parses and leaves its
    lname as a key of the dict. *)
Lemma parse_rows_open_keys (body rest : list string) :
  forall d d' line,
    Forall (fun l => ends_table l = false) body ->
    parse_rows d (body ++ rest) = Ok d' ->
    In line body -> is_row line = true ->
    exists a, parse_row (Py.strip line) = Ok a /\ In (lname a) (keys d').
Proof.
  induction body as [|l body IH]; intros d d' line Hopen H Hin Hrow;
    [destruct Hin|].
  inversion Hopen as [|? ? Hl Hopen']; subst.
  cbn [app] in H. rewrite parse_rows_cons in H.
  unfold ends_table in Hl. rewrite Hl in H.
  destruct Hin as [->|Hin].
  - unfold is_row in Hrow. rewrite Hrow in H. cbn [negb] in H.
    destruct (parse_row (Py.strip line)) as [b|e] eqn:R; cbn [bind] in H;
      [|discriminate].
    exists b. split; [reflexivity|].
    eapply parse_rows_keys_grow; [exact H|].
    apply keys_dict_set_in. now left.
  - destruct (negb _); [eapply IH; eassumption|].
    destruct (parse_row (Py.strip l)) as [b|e]; cbn [bind] in H;
      [|discriminate].
    eapply IH; eassumption.
Qed.

Lemma dict_inv_key_value (d : dict alias) (k : string) :
  dict_inv d -> In k (keys d) ->
  exists a, In a (values d) /\ lname a = k.
Proof.
  intros [_ Hf] Hk. unfold keys in Hk. apply in_map_iff in Hk.
  destruct Hk as ([k' a] & <- & Hin).
  rewrite Forall_forall in Hf. destruct (Hf _ Hin) as [E _].
  exists a. split; [|simpl in E; simpl; now symmetry].
  unfold values. apply in_map_iff. exists (k', a). auto.
Qed.

(** Every row of the open part of the table gives an extracted alias with
    the lname of the row. *)
Lemma parse_aliases_row_read
  (pre body rest : list string) (s line : string) (raw : list alias) :
  Forall (fun l => Py.contains OPTS_START l = false) pre ->
  Py.contains OPTS_START s = true ->
  Forall (fun l => ends_table l = false) body ->
  parse_aliases (pre ++ s :: body ++ rest) = Ok raw ->
  In line body -> is_row line = true ->
  exists a b,
    parse_row (Py.strip line) = Ok b /\ In a raw /\ lname a = lname b.
Proof.
  intros Hpre Hs Hopen H Hin Hrow. unfold parse_aliases in H.
  assert (E : skip_to_start (pre ++ s :: body ++ rest) = (body ++ rest)%list).
  { clear -Hpre Hs. induction Hpre as [|l pre Hl Hpre IH]; simpl.
    - now rewrite Hs.
    - now rewrite Hl. }
  rewrite E in H.
  destruct (parse_rows [] (body ++ rest)) as [d|e] eqn:P; cbn [bind] in H;
    [|discriminate].
  injection H as <-.
  destruct (parse_rows_open_keys body rest [] d line Hopen P Hin Hrow)
    as (b & Hb & Hk).
  assert (Hinv : dict_inv d).
  { eapply parse_rows_inv; [exact P|]. split; constructor. }
  destruct (dict_inv_key_value d (lname b) Hinv Hk) as (a & Ha & Hl).
  exists a, b. auto.
Qed.

(** ** The normaliser *)

Section Normalizer.

Variable count : string -> nat.

Lemma strip_negation_fields (a : alias) :
  letter (strip_negation a) = letter a
  /\ lname (strip_negation a) = lname a
  /\ type_ (strip_negation a) = type_ a
  /\ expand (strip_negation a) = expand a.
Proof.
  unfold strip_negation.
  destruct (Py.mem _ _); [destruct (negb _)|]; simpl; auto.
Qed.

Lemma resolve_dupe_fields (a a1 : alias) :
  resolve_dupe count a = Ok a1 ->
  letter a1 = letter a /\ lname a1 = lname a
  /\ type_ a1 = type_ a /\ expand a1 = expand a.
Proof.
  unfold resolve_dupe.
  destruct (Nat.ltb _ _).
  - destruct (dict_get _ _); [|discriminate].
    destruct (negb _); intros H; injection H as <-; simpl; auto.
  - intros H; injection H as <-; auto.
Qed.

Lemma resolved_fields (a a1 : alias) :
  resolve_dupe count (strip_negation a) = Ok a1 ->
  letter a1 = letter a /\ lname a1 = lname a
  /\ type_ a1 = type_ a /\ expand a1 = expand a.
Proof.
  intros H. apply resolve_dupe_fields in H.
  destruct (strip_negation_fields a) as (E1 & E2 & E3 & E4).
  destruct H as (H1 & H2 & H3 & H4).
  rewrite H1, H2, H3, H4. auto.
Qed.

Lemma fill_loop_steps (aliases : list alias) :
  forall idx,
    fill_loop count idx aliases
    = (steps <- normalize_all count aliases ;;
       Ok (map fst steps, no_aliases_from idx steps)).
Proof.
  induction aliases as [|a rest IH]; intros idx; simpl.
  - reflexivity.
  - unfold normalize_one.
    destruct (resolve_dupe count (strip_negation a)) as [a1|e]; simpl;
      [|reflexivity].
    destruct (negate a1) as [a' no].
    rewrite IH.
    destruct (normalize_all count rest) as [steps|e]; simpl; [|reflexivity].
    destruct no; reflexivity.
Qed.

End Normalizer.

Lemma insert_at_end {A : Type} (pre rest : list A) (x : A) (n : nat) :
  n = List.length pre -> Py.insert n x (pre ++ rest) = (pre ++ x :: rest)%list.
Proof.
  intros ->. unfold Py.insert.
  rewrite firstn_app, skipn_app, Nat.sub_diag, firstn_all, skipn_all.
  simpl. now rewrite app_nil_r.
Qed.

(** The index arithmetic of the second loop puts every --no-OPTION right
    after its OPTION. *)
Lemma insert_all_flat (steps : list (alias * option alias)) :
  forall (pre : list alias) (i idx : nat),
    List.length pre = idx + i ->
    insert_all i (no_aliases_from idx steps) (pre ++ map fst steps)
    = (pre ++ flat_map emit steps)%list.
Proof.
  induction steps as [|[a [n|]] steps IH]; intros pre i idx Hlen; simpl.
  - reflexivity.
  - replace (pre ++ a :: map fst steps)%list
      with ((pre ++ [a]) ++ map fst steps)%list
      by (now rewrite <- app_assoc).
    rewrite insert_at_end
      by (rewrite length_app; simpl; lia).
    replace ((pre ++ [a]) ++ n :: map fst steps)%list
      with ((pre ++ [a; n]) ++ map fst steps)%list
      by (now rewrite <- !app_assoc).
    rewrite (IH _ (S i) (S idx)) by (rewrite length_app; simpl; lia).
    unfold emit at 2. simpl. now rewrite <- app_assoc.
  - replace (pre ++ a :: map fst steps)%list
      with ((pre ++ [a]) ++ map fst steps)%list
      by (now rewrite <- app_assoc).
    rewrite (IH _ i (S idx)) by (rewrite length_app; simpl; lia).
    unfold emit at 2. simpl. now rewrite <- app_assoc.
Qed.

(** [fill_out_aliases] maps every alias to itself followed by its
    --no-OPTION, if it has one, and flattens. *)
Lemma fill_out_aliases_flat (aliases : list alias) :
  fill_out_aliases aliases
  = (steps <- normalize_all (letter_count aliases) aliases ;;
     Ok (flat_map emit steps)).
Proof.
  unfold fill_out_aliases. rewrite fill_loop_steps.
  destruct (normalize_all _ _) as [steps|e]; simpl; [|reflexivity].
  f_equal. apply (insert_all_flat steps [] 0 0). reflexivity.
Qed.

Section Positions.

Variable count : string -> nat.

Lemma emit_negate (a1 : alias) :
  emit (negate a1)
  = if String.eqb (type_ a1) "bool" then [a1; make_no_alias a1]
    else [fst (negate a1)].
Proof.
  unfold negate. destruct (String.eqb (type_ a1) "bool"); [reflexivity|].
  destruct (String.eqb (type_ a1) "none"); reflexivity.
Qed.

Lemma negate_fields (a1 : alias) :
  letter (fst (negate a1)) = letter a1
  /\ lname (fst (negate a1)) = lname a1
  /\ name (fst (negate a1)) = name a1
  /\ expand (fst (negate a1)) = expand a1
  /\ type_ (fst (negate a1))
     = if String.eqb (type_ a1) "none" then "bool" else type_ a1.
Proof.
  unfold negate. destruct (String.eqb (type_ a1) "bool") eqn:B; simpl.
  - apply String.eqb_eq in B. rewrite B. simpl. auto.
  - destruct (String.eqb (type_ a1) "none"); simpl; auto.
Qed.

Lemma normalize_all_cons (a : alias) (rest : list alias)
  (steps : list (alias * option alias)) :
  normalize_all count (a :: rest) = Ok steps ->
  exists a1 steps',
    resolve_dupe count (strip_negation a) = Ok a1
    /\ normalize_all count rest = Ok steps'
    /\ steps = negate a1 :: steps'.
Proof.
  simpl. unfold normalize_one.
  destruct (resolve_dupe _ _) as [a1|e]; simpl; [|discriminate].
  destruct (normalize_all count rest) as [steps'|e]; simpl; [|discriminate].
  intros H. injection H as <-. eauto.
Qed.

Lemma position_succ (raw : list alias) :
  forall i a,
    nth_error raw i = Some a ->
    position raw (S i)
    = position raw i + (if String.eqb (type_ a) "bool" then 2 else 1).
Proof.
  induction raw as [|a0 rest IH]; intros [|i] a H; try discriminate.
  - simpl in H. injection H as ->. simpl. destruct rest; simpl; lia.
  - simpl in H. apply IH in H.
    change (position (a0 :: rest) (S (S i)))
      with ((if String.eqb (type_ a0) "bool" then 2 else 1)
            + position rest (S i)).
    rewrite H. simpl. lia.
Qed.

(** Where each raw alias and its --no-OPTION stand in the flattened
    sequence. *)
Lemma normalize_all_nth (raw : list alias) :
  forall steps i a,
    normalize_all count raw = Ok steps ->
    nth_error raw i = Some a ->
    exists a1,
      resolve_dupe count (strip_negation a) = Ok a1
      /\ nth_error (flat_map emit steps) (position raw i)
         = Some (fst (negate a1))
      /\ (type_ a = "bool" ->
          nth_error (flat_map emit steps) (S (position raw i))
          = Some (make_no_alias a1)).
Proof.
  induction raw as [|a0 rest IH]; intros steps i a Hn Hi.
  - destruct i; discriminate.
  - apply normalize_all_cons in Hn.
    destruct Hn as (a1 & steps' & Hr & Hn & ->).
    pose proof (resolved_fields count a0 a1 Hr) as (_ & _ & Ht & _).
    cbn [flat_map]. rewrite emit_negate, Ht.
    destruct i as [|i].
    + simpl in Hi. injection Hi as <-.
      exists a1. split; [exact Hr|]. simpl position.
      destruct (String.eqb (type_ a0) "bool") eqn:B.
      * split; [|reflexivity].
        simpl. unfold negate. rewrite Ht, B. reflexivity.
      * split; [reflexivity|].
        intros E. rewrite E in B. discriminate.
    + simpl in Hi.
      destruct (IH steps' i a Hn Hi) as (a2 & Hr2 & Hp & Hs).
      exists a2. split; [exact Hr2|].
      change (position (a0 :: rest) (S i))
        with ((if String.eqb (type_ a0) "bool" then 2 else 1)
              + position rest i).
      destruct (String.eqb (type_ a0) "bool"); simpl; auto.
Qed.

Lemma normalize_all_length (raw : list alias) :
  forall steps,
    normalize_all count raw = Ok steps ->
    List.length (flat_map emit steps) = position raw (List.length raw).
Proof.
  induction raw as [|a0 rest IH]; intros steps Hn.
  - injection Hn as <-. reflexivity.
  - apply normalize_all_cons in Hn.
    destruct Hn as (a1 & steps' & Hr & Hn & ->).
    pose proof (resolved_fields count a0 a1 Hr) as (_ & _ & Ht & _).
    cbn [flat_map]. rewrite length_app, emit_negate, Ht, (IH _ Hn).
    simpl. destruct (String.eqb (type_ a0) "bool"); reflexivity.
Qed.

(** Every entry of the flattened sequence is a raw alias as the loop
    leaves it, or the --no-OPTION of a raw alias of type bool. *)
Lemma normalize_all_in (raw : list alias) :
  forall steps b,
    normalize_all count raw = Ok steps ->
    In b (flat_map emit steps) ->
    exists a a1,
      In a raw /\ resolve_dupe count (strip_negation a) = Ok a1
      /\ (b = fst (negate a1) \/ (type_ a = "bool" /\ b = make_no_alias a1)).
Proof.
  induction raw as [|a0 rest IH]; intros steps b Hn Hb.
  - injection Hn as <-. destruct Hb.
  - apply normalize_all_cons in Hn.
    destruct Hn as (a1 & steps' & Hr & Hn & ->).
    pose proof (resolved_fields count a0 a1 Hr) as (_ & _ & Ht & _).
    cbn [flat_map] in Hb. apply in_app_or in Hb. destruct Hb as [Hb|Hb].
    + exists a0, a1. split; [now left|]. split; [exact Hr|].
      rewrite emit_negate, Ht in Hb.
      destruct (String.eqb (type_ a0) "bool") eqn:B.
      * apply String.eqb_eq in B.
        destruct Hb as [<-|[<-|[]]].
        -- left. unfold negate. rewrite Ht, B. reflexivity.
        -- right. auto.
      * destruct Hb as [<-|[]]. now left.
    + destruct (IH steps' b Hn Hb) as (a & a2 & Ha & Hr2 & Hc).
      exists a, a2. split; [now right|]. auto.
Qed.

End Positions.

Lemma fill_out_aliases_steps (raw out : list alias) :
  fill_out_aliases raw = Ok out ->
  exists steps,
    normalize_all (letter_count raw) raw = Ok steps
    /\ out = flat_map emit steps.
Proof.
  rewrite fill_out_aliases_flat.
  destruct (normalize_all _ _) as [steps|e]; simpl; [|discriminate].
  intros H. injection H as <-. eauto.
Qed.

(** Every raw alias is found at its position, with its lname and without
    an expand key of its own. *)
Lemma fill_out_aliases_nth (raw out : list alias) (i : nat) (a : alias) :
  fill_out_aliases raw = Ok out ->
  nth_error raw i = Some a ->
  exists a1,
    resolve_dupe (letter_count raw) (strip_negation a) = Ok a1
    /\ nth_error out (position raw i) = Some (fst (negate a1))
    /\ (type_ a = "bool" ->
        nth_error out (S (position raw i)) = Some (make_no_alias a1)).
Proof.
  intros Hf Hi. apply fill_out_aliases_steps in Hf.
  destruct Hf as (steps & Hn & ->).
  eapply normalize_all_nth; eassumption.
Qed.

Lemma nth_error_length {A : Type} (l : list A) :
  nth_error l (List.length l) = None.
Proof.
  apply nth_error_None. lia.
Qed.

(** ** C1: the --no-OPTION counterparts *)

(** C1, as amended: for every alias whose type is "bool" before
    normalisation (an alias of type "none" becomes "bool" but gets no
    counterpart), the normalised sequence holds the alias at its position
    and right after it one synthetic alias with the same letter and type,
    lname "no-" + lname, name the alias's name if it has one and else its
    lname, and expand false; what comes after the synthetic alias is the
    next raw alias, or the end of the sequence. *)
Theorem bool_alias_followed_by_no_alias
  (raw out : list alias) (i : nat) (a : alias) :
  fill_out_aliases raw = Ok out ->
  nth_error raw i = Some a ->
  type_ a = "bool" ->
  exists a' s,
    nth_error out (position raw i) = Some a'
    /\ nth_error out (S (position raw i)) = Some s
    /\ letter a' = letter a /\ lname a' = lname a
    /\ type_ a' = "bool" /\ expand a' = expand a
    /\ no_alias_of a' s
    /\ position raw (S i) = S (S (position raw i))
    /\ (forall b, nth_error raw (S i) = Some b ->
        exists b', nth_error out (position raw (S i)) = Some b'
                   /\ lname b' = lname b /\ expand b' = expand b)
    /\ (nth_error raw (S i) = None ->
        nth_error out (position raw (S i)) = None).
Proof.
  intros Hf Hi Hb.
  destruct (fill_out_aliases_nth raw out i a Hf Hi) as (a1 & Hr & Hp & Hs).
  pose proof (resolved_fields _ a a1 Hr) as (E1 & E2 & E3 & E4).
  assert (Hneg : fst (negate a1) = a1).
  { unfold negate. rewrite E3, Hb. reflexivity. }
  rewrite Hneg in Hp.
  exists a1, (make_no_alias a1).
  split; [exact Hp|]. split; [auto|].
  split; [exact E1|]. split; [exact E2|].
  split; [now rewrite E3|]. split; [exact E4|].
  split; [unfold no_alias_of, make_no_alias, get_name; simpl; auto|].
  split.
  { rewrite (position_succ raw i a Hi), Hb. simpl. lia. }
  split.
  - intros b Hb'.
    destruct (fill_out_aliases_nth raw out (S i) b Hf Hb')
      as (b1 & Hrb & Hpb & _).
    pose proof (resolved_fields _ b b1 Hrb) as (_ & F2 & _ & F4).
    destruct (negate_fields b1) as (_ & G2 & _ & G4 & _).
    exists (fst (negate b1)). split; [exact Hpb|].
    rewrite G2, G4. auto.
  - intros Hnone.
    apply nth_error_None in Hnone.
    assert (Hlt : i < List.length raw)
      by (apply nth_error_Some; rewrite Hi; discriminate).
    replace (S i) with (List.length raw) by lia.
    apply fill_out_aliases_steps in Hf. destruct Hf as (steps & Hn & ->).
    rewrite <- (normalize_all_length _ raw steps Hn).
    apply nth_error_length.
Qed.

Lemma bool_alias_followed_by_no_alias_witness :
  exists a' s,
    nth_error [raw_alias "v" "verbose" "bool";
               mkAlias "v" "no-verbose" "bool" (Some "verbose") (Some false)]
      (position [raw_alias "v" "verbose" "bool"] 0) = Some a'
    /\ nth_error [raw_alias "v" "verbose" "bool";
                  mkAlias "v" "no-verbose" "bool" (Some "verbose") (Some false)]
         (S (position [raw_alias "v" "verbose" "bool"] 0)) = Some s
    /\ letter a' = "v" /\ lname a' = "verbose"
    /\ type_ a' = "bool" /\ expand a' = None
    /\ no_alias_of a' s.
Proof.
  destruct (bool_alias_followed_by_no_alias
              [raw_alias "v" "verbose" "bool"]
              [raw_alias "v" "verbose" "bool";
               mkAlias "v" "no-verbose" "bool" (Some "verbose") (Some false)]
              0 (raw_alias "v" "verbose" "bool")
              eq_refl eq_refl eq_refl)
    as (a' & s & H1 & H2 & H3 & H4 & H5 & H6 & H7 & _).
  exists a', s. repeat split; try assumption; apply H7.
Defined.

(** C1 as the specification states it fails: the row of --version, of type
    ARG_NONE, is an alias of type "bool" in the normalised sequence, is not
    synthetic, and nothing follows it. *)
Lemma none_alias_not_negated :
  parse_aliases version_table = Ok [raw_alias "V" "version" "none"]
  /\ fill_out_aliases [raw_alias "V" "version" "none"]
     = Ok [raw_alias "V" "version" "bool"]
  /\ ~ every_bool_negated [raw_alias "V" "version" "bool"].
Proof.
  split; [vm_compute; reflexivity|].
  split; [vm_compute; reflexivity|].
  intros H.
  destruct (H 0 (raw_alias "V" "version" "bool") eq_refl eq_refl eq_refl)
    as (s & Hs & _).
  discriminate.
Qed.

(** ** C2: the length of the letter *)

(** C2: the check [1 > len(letter) > 2] of [parse_aliases] holds of no
    length, so no row fails with the letter error, and the row
    {"abc", "foo", ARG_BOOL} is extracted with its letter of three
    characters. *)
Theorem letter_length_not_checked :
  (forall line n, parse_row line <> Err (ValueError_letter n))
  /\ parse_aliases long_letter_table = Ok [raw_alias "abc" "foo" "bool"]
  /\ String.length (letter (raw_alias "abc" "foo" "bool")) = 3.
Proof.
  split; [exact parse_row_no_letter_error|].
  split; [vm_compute; reflexivity | reflexivity].
Qed.

(** ** C3: letters used more than once *)

Lemma normalize_all_error (count : string -> nat) (raw : list alias) :
  forall e,
    normalize_all count raw = Err e ->
    exists b,
      In b raw /\ e = KeyError (lname b)
      /\ 1 < count (letter b) /\ dict_get (lname b) DUPES = None.
Proof.
  induction raw as [|a rest IH]; intros e; simpl; [discriminate|].
  unfold normalize_one.
  destruct (resolve_dupe count (strip_negation a)) as [a1|e1] eqn:R; simpl.
  - destruct (normalize_all count rest) as [steps|e2]; simpl; [discriminate|].
    intros H. injection H as <-.
    destruct (IH e2 eq_refl) as (b & Hb & He & Hc).
    exists b. split; [now right | auto].
  - intros H. injection H as <-.
    exists a. split; [now left|].
    destruct (strip_negation_fields a) as (E1 & E2 & _).
    unfold resolve_dupe in R. rewrite E1, E2 in R.
    destruct (Nat.ltb 1 (count (letter a))) eqn:L; [|discriminate].
    apply Nat.ltb_lt in L.
    destruct (dict_get (lname a) DUPES) eqn:D.
    + destruct (negb _); discriminate.
    + injection R as <-. auto.
Qed.

(** C3: for an extracted alias whose letter is used by two or more of the
    aliases, when its lname is not in DUPES normalisation fails with the
    KeyError of a lname that is not in DUPES and whose letter is used more
    than once; when it is, the alias gets name = DUPES[lname] exactly when
    its lname is not that name. *)
Theorem shared_letter_resolved_by_dupes
  (raw : list alias) (i : nat) (a : alias) :
  nth_error raw i = Some a ->
  raw_form a ->
  1 < letter_count raw (letter a) ->
  match dict_get (lname a) DUPES with
  | None =>
      exists b,
        fill_out_aliases raw = Err (KeyError (lname b))
        /\ In b raw /\ 1 < letter_count raw (letter b)
        /\ dict_get (lname b) DUPES = None
  | Some canonical =>
      forall out,
        fill_out_aliases raw = Ok out ->
        exists a',
          nth_error out (position raw i) = Some a'
          /\ lname a' = lname a
          /\ (name a' = Some canonical <-> lname a <> canonical)
  end.
Proof.
  intros Hi [Hname _] Hc.
  destruct (dict_get (lname a) DUPES) as [canonical|] eqn:D.
  - intros out Hf.
    destruct (fill_out_aliases_nth raw out i a Hf Hi) as (a1 & Hr & Hp & _).
    pose proof (resolved_fields _ a a1 Hr) as (_ & E2 & _).
    destruct (negate_fields a1) as (_ & G2 & G3 & _).
    exists (fst (negate a1)). split; [exact Hp|].
    split; [now rewrite G2|].
    rewrite G3.
    destruct (strip_negation_fields a) as (S1 & S2 & _).
    unfold resolve_dupe in Hr. rewrite S1, S2, D in Hr.
    apply Nat.ltb_lt in Hc. rewrite Hc in Hr.
    destruct (String.eqb (lname a) canonical) eqn:Q; simpl in Hr;
      injection Hr as <-.
    + apply String.eqb_eq in Q.
      split; [|intros Hne; contradiction].
      intros Hs. exfalso.
      unfold strip_negation in Hs.
      destruct (Py.mem _ _).
      * destruct (String.eqb (lname a) (without_no (lname a))) eqn:W;
          simpl in Hs.
        -- rewrite Hname in Hs. discriminate.
        -- injection Hs as Hs. rewrite Hs, Q, String.eqb_refl in W.
           discriminate.
      * rewrite Hname in Hs. discriminate.
    + apply String.eqb_neq in Q. simpl. split; auto.
  - destruct (fill_out_aliases raw) as [out|e] eqn:Hf.
    + exfalso.
      destruct (fill_out_aliases_nth raw out i a Hf Hi) as (a1 & Hr & _).
      destruct (strip_negation_fields a) as (S1 & S2 & _).
      unfold resolve_dupe in Hr. rewrite S1, S2, D in Hr.
      apply Nat.ltb_lt in Hc. rewrite Hc in Hr. discriminate.
    + rewrite fill_out_aliases_flat in Hf.
      destruct (normalize_all _ _) as [steps|e'] eqn:Hn; simpl in Hf;
        [discriminate|].
      injection Hf as <-.
      destruct (normalize_all_error _ raw e' Hn) as (b & Hb & -> & H1 & H2).
      exists b. auto.
Qed.

Lemma shared_letter_resolved_by_dupes_witness :
  (forall out,
     fill_out_aliases ssl_rows = Ok out ->
     exists a',
       nth_error out (position ssl_rows 0) = Some a'
       /\ lname a' = "ftp-ssl"
       /\ (name a' = Some "ssl" <-> "ftp-ssl" <> "ssl"))
  /\ (exists b,
        fill_out_aliases tls_rows = Err (KeyError (lname b))
        /\ In b tls_rows /\ 1 < letter_count tls_rows (letter b)
        /\ dict_get (lname b) DUPES = None).
Proof.
  split.
  - exact (shared_letter_resolved_by_dupes ssl_rows 0
             (raw_alias "Fa" "ftp-ssl" "bool")
             eq_refl (conj eq_refl eq_refl)
             (le_n 2)).
  - exact (shared_letter_resolved_by_dupes tls_rows 0
             (raw_alias "Fa" "tls" "bool")
             eq_refl (conj eq_refl eq_refl)
             (le_n 2)).
Defined.

(** ** C5: the types after normalisation *)

Lemma normalized_entry_type (count : string -> nat) (a a1 b : alias) :
  extracted a ->
  resolve_dupe count (strip_negation a) = Ok a1 ->
  b = fst (negate a1) \/ (type_ a = "bool" /\ b = make_no_alias a1) ->
  type_ b = "string" \/ type_ b = "bool".
Proof.
  intros [Ht _] Hr Hb.
  pose proof (resolved_fields _ a a1 Hr) as (_ & _ & E3 & _).
  destruct Hb as [->|[Hbool ->]].
  - destruct (negate_fields a1) as (_ & _ & _ & _ & G).
    rewrite G, E3.
    destruct Ht as [Ht|[Ht|Ht]]; rewrite Ht; simpl; auto.
  - simpl. rewrite E3. auto.
Qed.

(** C5: every extracted alias is a row of the input whose type is the
    third field of the row, stripped, without the prefix ARG_ and lowered,
    with "filename" rewritten to "string", so that no extracted alias has
    the type "filename"; every row read while the table is open gives an
    extracted alias; every extracted alias stands in the normalised
    sequence with its type, "none" rewritten to "bool"; and every alias of
    the normalised sequence has the type "string" or "bool", so neither
    "filename" nor "none". *)
Theorem normalized_types_string_or_bool
  (lines : list string) (raw out : list alias) :
  parse_aliases lines = Ok raw ->
  fill_out_aliases raw = Ok out ->
  (forall a,
     In a raw ->
     exists line f1 f2 desc,
       In line lines
       /\ row_fields (Py.strip line) = [f1; f2; desc]
       /\ lname a = Py.strip_chars quote_char (Py.strip f2)
       /\ type_ a
          = (if String.eqb
                  (Py.lower (Py.removeprefix "ARG_" (Py.strip desc)))
                  "filename"
             then "string"
             else Py.lower (Py.removeprefix "ARG_" (Py.strip desc)))
       /\ type_ a <> "filename")
  /\ (forall pre s body rest line,
        lines = (pre ++ s :: body ++ rest)%list ->
        Forall (fun l => Py.contains OPTS_START l = false) pre ->
        Py.contains OPTS_START s = true ->
        Forall (fun l => ends_table l = false) body ->
        In line body -> is_row line = true ->
        exists a f1 f2 desc,
          In a raw
          /\ row_fields (Py.strip line) = [f1; f2; desc]
          /\ lname a = Py.strip_chars quote_char (Py.strip f2))
  /\ (forall i a,
        nth_error raw i = Some a ->
        exists a',
          nth_error out (position raw i) = Some a'
          /\ lname a' = lname a
          /\ type_ a'
             = (if String.eqb (type_ a) "none" then "bool" else type_ a))
  /\ Forall (fun b => (type_ b = "string" \/ type_ b = "bool")
                      /\ type_ b <> "filename" /\ type_ b <> "none") out.
Proof.
  intros Hp Hf.
  pose proof (parse_aliases_extracted _ _ Hp) as [_ Hx].
  rewrite Forall_forall in Hx.
  split; [|split; [|split]].
  - intros a Ha.
    destruct (parse_aliases_sources lines raw a Hp Ha) as (line & Hl & Hr).
    destruct (parse_row_ok_fields _ _ Hr) as (f1 & f2 & desc & F & _ & L & T).
    exists line, f1, f2, desc. repeat split; try assumption.
    destruct (Hx a Ha) as [[Ht|[Ht|Ht]] _]; rewrite Ht; discriminate.
  - intros pre s body rest line -> Hpre Hs Hopen Hin Hrow.
    destruct (parse_aliases_row_read pre body rest s line raw
                Hpre Hs Hopen Hp Hin Hrow) as (a & b & Hb & Ha & E).
    destruct (parse_row_ok_fields _ _ Hb) as (f1 & f2 & desc & F & _ & L & _).
    exists a, f1, f2, desc. repeat split; try assumption.
    now rewrite E.
  - intros i a Hi.
    destruct (fill_out_aliases_nth raw out i a Hf Hi) as (a1 & Hr & Hpos & _).
    pose proof (resolved_fields _ a a1 Hr) as (_ & E2 & E3 & _).
    destruct (negate_fields a1) as (_ & G2 & _ & _ & G5).
    exists (fst (negate a1)). split; [exact Hpos|].
    split; [now rewrite G2 | now rewrite G5, E3].
  - apply fill_out_aliases_steps in Hf. destruct Hf as (steps & Hn & ->).
    apply Forall_forall. intros b Hb.
    destruct (normalize_all_in _ raw steps b Hn Hb) as (a & a1 & Ha & Hr & Hc).
    assert (Ht : type_ b = "string" \/ type_ b = "bool")
      by (eapply normalized_entry_type; eauto).
    split; [exact Ht|].
    destruct Ht as [Ht|Ht]; rewrite Ht; split; discriminate.
Qed.

Lemma normalized_types_string_or_bool_witness :
  (exists a',
     nth_error [raw_alias "V" "version" "bool"]
       (position [raw_alias "V" "version" "none"] 0) = Some a'
     /\ lname a' = "version" /\ type_ a' = "bool")
  /\ Forall (fun b => (type_ b = "string" \/ type_ b = "bool")
                      /\ type_ b <> "filename" /\ type_ b <> "none")
       [raw_alias "V" "version" "bool"].
Proof.
  assert (P : parse_aliases version_table = Ok [raw_alias "V" "version" "none"])
    by (vm_compute; reflexivity).
  destruct (normalized_types_string_or_bool version_table
              [raw_alias "V" "version" "none"]
              [raw_alias "V" "version" "bool"] P eq_refl)
    as (_ & _ & H3 & H4).
  split; [|exact H4].
  exact (H3 0 (raw_alias "V" "version" "none") eq_refl).
Defined.

(** ** C10: the negation prefixes *)

Lemma resolve_dupe_unshared (count : string -> nat) (a : alias) :
  count (letter a) <= 1 -> resolve_dupe count a = Ok a.
Proof.
  intros H. unfold resolve_dupe.
  destruct (Nat.ltb 1 (count (letter a))) eqn:L; [|reflexivity].
  apply Nat.ltb_lt in L. lia.
Qed.

Lemma without_no_no_disable (x : string) :
  without_no ("no-disable-" ++ x) = x.
Proof.
  unfold without_no.
  change ("no-disable-" ++ x) with ("no-" ++ ("disable-" ++ x)).
  now rewrite !removeprefix_app.
Qed.

Lemma without_no_disable_no (x : string) :
  without_no ("disable-no-" ++ x) = "no-" ++ x.
Proof.
  unfold without_no.
  change (Py.removeprefix "no-" ("disable-no-" ++ x))
    with ("disable-" ++ ("no-" ++ x)).
  now rewrite removeprefix_app.
Qed.

Lemma append_length_neq (p q x : string) :
  String.length p <> String.length q -> p ++ x <> q ++ x.
Proof.
  intros Hl H. apply (f_equal String.length) in H.
  rewrite !append_length in H. lia.
Qed.

(** C10: an alias of type bool or none whose letter no other alias uses
    gets as name its lname without the prefix "no-" and then without the
    prefix "disable-", when that differs from the lname: "no-disable-x"
    gives the name "x", and "disable-no-x" gives "no-x". *)
Theorem negation_prefixes_stripped_in_turn
  (raw out : list alias) (i : nat) (a : alias) :
  fill_out_aliases raw = Ok out ->
  nth_error raw i = Some a ->
  type_ a = "bool" \/ type_ a = "none" ->
  letter_count raw (letter a) <= 1 ->
  exists a',
    nth_error out (position raw i) = Some a'
    /\ lname a' = lname a
    /\ name a'
       = (if String.eqb (lname a)
               (Py.removeprefix "disable-" (Py.removeprefix "no-" (lname a)))
          then name a
          else Some (Py.removeprefix "disable-"
                       (Py.removeprefix "no-" (lname a))))
    /\ (forall x, lname a = "no-disable-" ++ x -> name a' = Some x)
    /\ (forall x, lname a = "disable-no-" ++ x -> name a' = Some ("no-" ++ x)).
Proof.
  intros Hf Hi Ht Hc.
  destruct (fill_out_aliases_nth raw out i a Hf Hi) as (a1 & Hr & Hp & _).
  destruct (strip_negation_fields a) as (S1 & _).
  rewrite resolve_dupe_unshared in Hr by (now rewrite S1).
  injection Hr as <-.
  destruct (negate_fields (strip_negation a)) as (_ & G2 & G3 & _).
  destruct (strip_negation_fields a) as (_ & S2 & _).
  exists (fst (negate (strip_negation a))).
  split; [exact Hp|]. split; [now rewrite G2|].
  assert (Hname : name (strip_negation a)
                  = if String.eqb (lname a) (without_no (lname a))
                    then name a else Some (without_no (lname a))).
  { unfold strip_negation.
    assert (M : Py.mem (type_ a) BOOL_TYPES = true)
      by (destruct Ht as [Ht|Ht]; rewrite Ht; reflexivity).
    rewrite M.
    destruct (String.eqb (lname a) (without_no (lname a))); reflexivity. }
  rewrite G3, Hname. fold (without_no (lname a)).
  split; [reflexivity|]. split.
  - intros x Hx. rewrite Hx, without_no_no_disable.
    assert (Q : String.eqb ("no-disable-" ++ x) x = false).
    { apply String.eqb_neq.
      apply (append_length_neq "no-disable-" EmptyString x). discriminate. }
    now rewrite Q.
  - intros x Hx. rewrite Hx, without_no_disable_no.
    assert (Q : String.eqb ("disable-no-" ++ x) ("no-" ++ x) = false).
    { apply String.eqb_neq.
      apply (append_length_neq "disable-no-" "no-" x). discriminate. }
    now rewrite Q.
Qed.

Lemma negation_prefixes_stripped_in_turn_witness :
  exists a',
    nth_error [mkAlias "x" "no-disable-x" "bool" (Some "x") None]
      (position [raw_alias "x" "no-disable-x" "none"] 0) = Some a'
    /\ name a' = Some "x".
Proof.
  destruct (negation_prefixes_stripped_in_turn
              [raw_alias "x" "no-disable-x" "none"]
              [mkAlias "x" "no-disable-x" "bool" (Some "x") None]
              0 (raw_alias "x" "no-disable-x" "none")
              eq_refl eq_refl (or_intror eq_refl) (le_n 1))
    as (a' & H1 & _ & _ & H4 & _).
  exists a'. split; [exact H1 | exact (H4 "x" eq_refl)].
Defined.

(** ** C4: the row of --version *)

(** C4: for the table whose only row is {"V", "version", ARG_NONE}, the
    extractor, the normaliser and the splitter give the long option
    "version" with the value {type: "bool"} and nothing else, the short
    option "V" for "version" and nothing else, and no alias or key
    "no-version". *)
Theorem version_row_pipeline :
  parse_aliases version_table = Ok [raw_alias "V" "version" "none"]
  /\ fill_out_aliases [raw_alias "V" "version" "none"]
     = Ok [raw_alias "V" "version" "bool"]
  /\ split [raw_alias "V" "version" "bool"]
     = ([("version", [("type", VStr "bool")])], [("V", "version")])
  /\ (forall a, In a [raw_alias "V" "version" "bool"] ->
                lname a <> "no-version")
  /\ dict_get "no-version" (fst (split [raw_alias "V" "version" "bool"])) = None
  /\ dict_get "no-version" (snd (split [raw_alias "V" "version" "bool"])) = None.
Proof.
  split; [vm_compute; reflexivity|].
  split; [vm_compute; reflexivity|].
  split; [vm_compute; reflexivity|].
  split; [|split; vm_compute; reflexivity].
  intros a [<-|[]]. discriminate.
Qed.

(** ** C6: the short options *)

Lemma split_snoc (aliases : list alias) (a : alias) :
  split (aliases ++ [a]) = split_step (split aliases) a.
Proof.
  unfold split. now rewrite fold_left_app.
Qed.

Lemma split_step_short_other (acc : dict (dict value) * dict string)
  (a : alias) (k : string) :
  letter a <> k ->
  dict_get k (snd (split_step acc a)) = dict_get k (snd acc).
Proof.
  intros Hne. unfold split_step.
  destruct (Nat.eqb _ 1); simpl; [|reflexivity].
  apply dict_get_set_other. auto.
Qed.

Lemma fold_split_short_other (post : list alias) (k : string) :
  forall acc,
    (forall b, In b post -> letter b <> k) ->
    dict_get k (snd (fold_left split_step post acc)) = dict_get k (snd acc).
Proof.
  induction post as [|b post IH]; intros acc Hp; simpl; [reflexivity|].
  rewrite IH by (intros c Hc; apply Hp; now right).
  apply split_step_short_other. apply Hp. now left.
Qed.

Lemma fold_split_short_keys (aliases : list alias) (k : string) :
  forall acc,
    String.length k <> 1 ->
    dict_get k (snd (fold_left split_step aliases acc)) = dict_get k (snd acc).
Proof.
  induction aliases as [|a aliases IH]; intros acc Hk; simpl; [reflexivity|].
  rewrite IH by exact Hk.
  unfold split_step.
  destruct (Nat.eqb (String.length (letter a)) 1) eqn:E; simpl; [|reflexivity].
  apply Nat.eqb_eq in E.
  apply dict_get_set_other. intros ->. contradiction.
Qed.

(** C6: an alias of the sequence whose letter has one character writes in
    [short_args], under its letter, its name if it has one and else its
    lname, with "no-" before it when the letter is "N", and this is the
    value of the letter at the end if no later alias has the letter; an
    alias whose letter has two characters writes nothing; no key of
    [short_args] has another length than 1. *)
Theorem short_option_entries
  (aliases pre post : list alias) (a : alias) :
  aliases = (pre ++ a :: post)%list ->
  let resolved := match name a with Some n => n | None => lname a end in
  let written :=
    if String.eqb (letter a) "N" then "no-" ++ resolved else resolved in
  (String.length (letter a) = 1 ->
   snd (split (pre ++ [a])) = dict_set (letter a) written (snd (split pre))
   /\ ((forall b, In b post -> letter b <> letter a) ->
       dict_get (letter a) (snd (split aliases)) = Some written))
  /\ (String.length (letter a) = 2 ->
      snd (split (pre ++ [a])) = snd (split pre))
  /\ (forall k, String.length k <> 1 ->
                dict_get k (snd (split aliases)) = None).
Proof.
  intros -> resolved written.
  split; [|split].
  - intros Hl.
    assert (E : snd (split (pre ++ [a]))
                = dict_set (letter a) written (snd (split pre))).
    { rewrite split_snoc. unfold split_step. rewrite Hl. reflexivity. }
    split; [exact E|].
    intros Hpost.
    replace (pre ++ a :: post)%list with ((pre ++ [a]) ++ post)%list
      by (now rewrite <- app_assoc).
    unfold split at 1. rewrite fold_left_app.
    rewrite fold_split_short_other by exact Hpost.
    fold (split (pre ++ [a])). rewrite E.
    apply dict_get_set_same.
  - intros Hl. rewrite split_snoc. unfold split_step. rewrite Hl. reflexivity.
  - intros k Hk. unfold split.
    rewrite fold_split_short_keys by exact Hk. reflexivity.
Qed.

Lemma short_option_entries_witness :
  dict_get "N"
    (snd (split [mkAlias "N" "no-buffer" "bool" (Some "buffer") None;
                 raw_alias "Fa" "ssl" "bool"]))
  = Some "no-buffer".
Proof.
  apply (short_option_entries
           [mkAlias "N" "no-buffer" "bool" (Some "buffer") None;
            raw_alias "Fa" "ssl" "bool"]
           [] [raw_alias "Fa" "ssl" "bool"]
           (mkAlias "N" "no-buffer" "bool" (Some "buffer") None)
           eq_refl).
  - reflexivity.
  - intros b [<-|[]]. discriminate.
Defined.

(** ** C7: what the rewriting keeps of the output file *)

Lemma copy_to_start_found (A rest : list string) (s : string) :
  Forall (fun l => Py.contains JS_PARAMS_START l = false) A ->
  Py.contains JS_PARAMS_START s = true ->
  copy_to_start (A ++ s :: rest) = Some ((A ++ [s])%list, rest).
Proof.
  intros HA Hs. induction HA as [|l A Hl HA IH]; simpl.
  - now rewrite Hs.
  - now rewrite Hl, IH.
Qed.

Lemma skip_to_end_found (X rest : list string) (e : string) :
  Forall (fun l => Py.contains JS_PARAMS_END l = false) X ->
  Py.contains JS_PARAMS_END e = true ->
  skip_to_end (X ++ e :: rest) = Some (e, rest).
Proof.
  intros HX He. induction HX as [|l X Hl HX IH]; simpl.
  - now rewrite He.
  - now rewrite Hl, IH.
Qed.

Lemma splice_found (params_lines A X B : list string) (s e : string) :
  Forall (fun l => Py.contains JS_PARAMS_START l = false) A ->
  Py.contains JS_PARAMS_START s = true ->
  Forall (fun l => Py.contains JS_PARAMS_END l = false) X ->
  Py.contains JS_PARAMS_END e = true ->
  splice params_lines (A ++ s :: X ++ e :: B)
  = Ok (A ++ s :: map (fun l => (l ++ newline)%string) params_lines
          ++ e :: B)%list.
Proof.
  intros HA Hs HX He. unfold splice.
  rewrite (copy_to_start_found A (X ++ e :: B) s HA Hs).
  rewrite (skip_to_end_found X B e HX He).
  now rewrite <- app_assoc.
Qed.

(** C7, as amended: when no line before the line [s] with the BEGIN marker
    holds that marker and no line of the old region [X] holds the END
    marker, the text written is the lines [A], the line [s], the two
    generated tables, the line [e] with the END marker and the lines [B],
    whatever [A], [X] and [B] hold besides. *)
Theorem splice_keeps_outside_of_markers
  (py_repr : string -> string) (input : list string)
  (raw aliases : list alias) (A X B : list string) (s e : string) :
  parse_aliases input = Ok raw ->
  fill_out_aliases raw = Ok aliases ->
  Forall (fun l => Py.contains JS_PARAMS_START l = false) A ->
  Py.contains JS_PARAMS_START s = true ->
  Forall (fun l => Py.contains JS_PARAMS_END l = false) X ->
  Py.contains JS_PARAMS_END e = true ->
  main py_repr input (A ++ s :: X ++ e :: B)
  = Ok (spliced_text py_repr aliases A s e B).
Proof.
  intros Hp Hf HA Hs HX He. unfold main.
  rewrite Hp. cbn [bind]. rewrite Hf. cbn [bind].
  destruct (split aliases) as [long_args short_args] eqn:Sp.
  rewrite (splice_found _ A X B s e HA Hs HX He). cbn [bind].
  unfold spliced_text. rewrite Sp. cbn [fst snd].
  f_equal.
  rewrite concat_app, concat_cons, concat_app, concat_cons.
  reflexivity.
Qed.

Lemma splice_keeps_outside_of_markers_witness :
  main repr_plain version_table
    (["head" ++ newline] ++ js_begin :: [js_stale] ++ js_end :: ["tail"])
  = Ok (spliced_text repr_plain [raw_alias "V" "version" "bool"]
          ["head" ++ newline] js_begin js_end ["tail"]).
Proof.
  apply (splice_keeps_outside_of_markers repr_plain version_table
           [raw_alias "V" "version" "none"]
           [raw_alias "V" "version" "bool"]
           ["head" ++ newline] [js_stale] ["tail"] js_begin js_end).
  - vm_compute. reflexivity.
  - vm_compute. reflexivity.
  - repeat constructor.
  - vm_compute. reflexivity.
  - repeat constructor.
  - vm_compute. reflexivity.
Defined.

(** C7 as the specification states it, for any old region, fails: with a
    line that holds the END marker inside the old region, the rest of the
    old region stays in the text written. *)
Lemma splice_keeps_rest_of_old_region :
  Py.contains JS_PARAMS_START js_begin = true
  /\ Py.contains JS_PARAMS_END js_end = true
  /\ main repr_plain version_table
       ([] ++ js_begin :: [js_end; js_stale] ++ js_end :: [])
     <> Ok (spliced_text repr_plain [raw_alias "V" "version" "bool"]
              [] js_begin js_end []).
Proof.
  split; [vm_compute; reflexivity|].
  split; [vm_compute; reflexivity|].
  vm_compute. discriminate.
Qed.

(** ** C8: normalising again *)

Lemma reduce_to_raw_app (l1 l2 : list alias) :
  reduce_to_raw (l1 ++ l2) = (reduce_to_raw l1 ++ reduce_to_raw l2)%list.
Proof.
  unfold reduce_to_raw. now rewrite filter_app, map_app.
Qed.

Lemma raw_alias_eta (a : alias) :
  raw_form a -> raw_alias (letter a) (lname a) (type_ a) = a.
Proof.
  destruct a as [l n t nm ex]. unfold raw_form, raw_alias. simpl.
  intros [-> ->]. reflexivity.
Qed.

Lemma reduce_to_raw_emit (count : string -> nat) (a a1 : alias) :
  raw_form a -> type_ a <> "none" ->
  resolve_dupe count (strip_negation a) = Ok a1 ->
  reduce_to_raw (emit (negate a1)) = [a].
Proof.
  intros Hraw Hnone Hr.
  pose proof (resolved_fields _ a a1 Hr) as (E1 & E2 & E3 & E4).
  pose proof Hraw as [_ Hex].
  rewrite emit_negate.
  destruct (String.eqb (type_ a1) "bool") eqn:B.
  - unfold reduce_to_raw. simpl. rewrite E4, Hex. simpl.
    rewrite E1, E2, E3. now rewrite raw_alias_eta.
  - destruct (negate_fields a1) as (G1 & G2 & _ & G4 & G5).
    unfold reduce_to_raw. simpl. rewrite G4, E4, Hex. simpl.
    rewrite G1, G2, G5, E1, E2, E3.
    assert (N : String.eqb (type_ a) "none" = false)
      by (now apply String.eqb_neq).
    rewrite N. now rewrite raw_alias_eta.
Qed.

Lemma reduce_to_raw_flat (count : string -> nat) (raw : list alias) :
  forall steps,
    Forall raw_form raw ->
    Forall (fun a => type_ a <> "none") raw ->
    normalize_all count raw = Ok steps ->
    reduce_to_raw (flat_map emit steps) = raw.
Proof.
  induction raw as [|a rest IH]; intros steps Hraw Hnone Hn.
  - injection Hn as <-. reflexivity.
  - apply normalize_all_cons in Hn.
    destruct Hn as (a1 & steps' & Hr & Hn & ->).
    inversion Hraw as [|? ? Ha Hrest]; subst.
    inversion Hnone as [|? ? Na Nrest]; subst.
    cbn [flat_map]. rewrite reduce_to_raw_app.
    rewrite (reduce_to_raw_emit count a a1 Ha Na Hr).
    rewrite (IH steps' Hrest Nrest Hn). reflexivity.
Qed.

(** A raw sequence with no alias of type "none" is the reduced form of
    its normalised sequence, and normalising that gives the normalised
    sequence again. *)
Lemma renormalize_without_none (raw out : list alias) :
  Forall raw_form raw ->
  Forall (fun a => type_ a <> "none") raw ->
  fill_out_aliases raw = Ok out ->
  reduce_to_raw out = raw
  /\ fill_out_aliases (reduce_to_raw out) = Ok out.
Proof.
  intros Hraw Hnone Hf.
  assert (E : reduce_to_raw out = raw).
  { pose proof Hf as Hf'.
    apply fill_out_aliases_steps in Hf'. destruct Hf' as (steps & Hn & ->).
    eapply reduce_to_raw_flat; eassumption. }
  split; [exact E|]. rewrite E. exact Hf.
Qed.

Lemma reduce_to_raw_is_raw (out : list alias) :
  Forall raw_form (reduce_to_raw out).
Proof.
  apply Forall_forall. intros a Ha. unfold reduce_to_raw in Ha.
  apply in_map_iff in Ha. destruct Ha as (b & <- & _).
  split; reflexivity.
Qed.

Lemma reduce_to_raw_types (out : list alias) :
  Forall (fun a => type_ a <> "none") out ->
  Forall (fun a => type_ a <> "none") (reduce_to_raw out).
Proof.
  intros H. rewrite Forall_forall in H.
  apply Forall_forall. intros a Ha. unfold reduce_to_raw in Ha.
  apply in_map_iff in Ha. destruct Ha as (b & <- & Hb).
  apply filter_In in Hb. destruct Hb as [Hb _]. exact (H b Hb).
Qed.

Lemma reduce_to_raw_pairs (out : list alias) :
  map (fun b => (letter b, lname b)) (reduce_to_raw out)
  = map (fun b => (letter b, lname b)) (filter is_original out).
Proof.
  unfold reduce_to_raw. rewrite map_map. reflexivity.
Qed.

Lemma normalized_without_none (count : string -> nat) (raw : list alias)
  (steps : list (alias * option alias)) :
  normalize_all count raw = Ok steps ->
  Forall (fun b => type_ b <> "none") (flat_map emit steps).
Proof.
  intros Hn. apply Forall_forall. intros b Hb.
  destruct (normalize_all_in _ raw steps b Hn Hb) as (a & a1 & _ & Hr & Hc).
  pose proof (resolved_fields _ a a1 Hr) as (_ & _ & E3 & _).
  destruct Hc as [->|[Hbool ->]].
  - destruct (negate_fields a1) as (_ & _ & _ & _ & G). rewrite G.
    destruct (String.eqb (type_ a1) "none") eqn:N; [discriminate|].
    now apply String.eqb_neq.
  - simpl. rewrite E3, Hbool. discriminate.
Qed.

Lemma fill_out_aliases_ok_dupes (raw out : list alias) (a : alias) :
  fill_out_aliases raw = Ok out ->
  In a raw -> 1 < letter_count raw (letter a) ->
  dict_get (lname a) DUPES <> None.
Proof.
  intros Hf Ha Hc Hd.
  apply In_nth_error in Ha. destruct Ha as [i Hi].
  destruct (fill_out_aliases_nth raw out i a Hf Hi) as (a1 & Hr & _).
  destruct (strip_negation_fields a) as (S1 & S2 & _).
  unfold resolve_dupe in Hr. rewrite S1, S2, Hd in Hr.
  apply Nat.ltb_lt in Hc. rewrite Hc in Hr. discriminate.
Qed.

Lemma fill_out_aliases_ok_of_dupes (raw : list alias) :
  (forall a, In a raw -> 1 < letter_count raw (letter a) ->
             dict_get (lname a) DUPES <> None) ->
  exists out, fill_out_aliases raw = Ok out.
Proof.
  intros H.
  destruct (fill_out_aliases raw) as [out|e] eqn:Hf; [eauto|].
  exfalso.
  rewrite fill_out_aliases_flat in Hf.
  destruct (normalize_all _ _) as [steps|e'] eqn:Hn; cbn [bind] in Hf;
    [discriminate|].
  destruct (normalize_all_error _ raw e' Hn) as (b & Hb & _ & H1 & H2).
  exact (H b Hb H1 H2).
Qed.

Lemma originals_of_emit (count : string -> nat) (a a1 : alias) :
  expand a = None ->
  resolve_dupe count (strip_negation a) = Ok a1 ->
  map (fun b => (letter b, lname b)) (filter is_original (emit (negate a1)))
  = [(letter a, lname a)].
Proof.
  intros Hex Hr.
  pose proof (resolved_fields _ a a1 Hr) as (E1 & E2 & _ & E4).
  rewrite emit_negate.
  destruct (String.eqb (type_ a1) "bool").
  - unfold is_original. simpl. rewrite E4, Hex. simpl. now rewrite E1, E2.
  - destruct (negate_fields a1) as (G1 & G2 & _ & G4 & _).
    unfold is_original. simpl. rewrite G4, E4, Hex. simpl.
    now rewrite G1, G2, E1, E2.
Qed.

Lemma originals_of_flat (count : string -> nat) (raw : list alias) :
  forall steps,
    Forall (fun a => expand a = None) raw ->
    normalize_all count raw = Ok steps ->
    map (fun b => (letter b, lname b))
      (filter is_original (flat_map emit steps))
    = map (fun a => (letter a, lname a)) raw.
Proof.
  induction raw as [|a rest IH]; intros steps Hex Hn.
  - injection Hn as <-. reflexivity.
  - apply normalize_all_cons in Hn.
    destruct Hn as (a1 & steps' & Hr & Hn & ->).
    inversion Hex as [|? ? Ha Hrest]; subst.
    cbn [flat_map]. rewrite filter_app, map_app.
    rewrite (originals_of_emit _ a a1 Ha Hr), (IH steps' Hrest Hn).
    reflexivity.
Qed.

Lemma letter_count_of_pairs (l1 l2 : list alias) (k : string) :
  map (fun b => (letter b, lname b)) l1
  = map (fun b => (letter b, lname b)) l2 ->
  letter_count l1 k = letter_count l2 k.
Proof.
  intros E. unfold letter_count.
  replace (map letter l1)
    with (map fst (map (fun b => (letter b, lname b)) l1))
    by (rewrite map_map; reflexivity).
  rewrite E, map_map. reflexivity.
Qed.

Lemma position_full (raw : list alias) :
  position raw (List.length raw)
  = List.length raw
    + List.length (filter (fun a => String.eqb (type_ a) "bool") raw).
Proof.
  induction raw as [|a rest IH]; [reflexivity|].
  change (position (a :: rest) (List.length (a :: rest)))
    with ((if String.eqb (type_ a) "bool" then 2 else 1)
          + position rest (List.length rest)).
  rewrite IH. simpl.
  destruct (String.eqb (type_ a) "bool"); simpl; lia.
Qed.

Lemma reduce_to_raw_emit_retyped (count : string -> nat) (a a1 : alias) :
  expand a = None ->
  resolve_dupe count (strip_negation a) = Ok a1 ->
  reduce_to_raw (emit (negate a1)) = [retyped a].
Proof.
  intros Hex Hr.
  pose proof (resolved_fields _ a a1 Hr) as (E1 & E2 & E3 & E4).
  rewrite emit_negate. unfold retyped.
  destruct (String.eqb (type_ a1) "bool") eqn:B.
  - unfold reduce_to_raw. simpl. rewrite E4, Hex. simpl.
    rewrite E1, E2, E3. rewrite E3 in B. apply String.eqb_eq in B.
    rewrite B. reflexivity.
  - destruct (negate_fields a1) as (G1 & G2 & _ & G4 & G5).
    unfold reduce_to_raw. simpl. rewrite G4, E4, Hex. simpl.
    rewrite G1, G2, G5, E1, E2, E3. reflexivity.
Qed.

Lemma reduce_to_raw_flat_retyped (count : string -> nat) (raw : list alias) :
  forall steps,
    Forall (fun a => expand a = None) raw ->
    normalize_all count raw = Ok steps ->
    reduce_to_raw (flat_map emit steps) = map retyped raw.
Proof.
  induction raw as [|a rest IH]; intros steps Hex Hn.
  - injection Hn as <-. reflexivity.
  - apply normalize_all_cons in Hn.
    destruct Hn as (a1 & steps' & Hr & Hn & ->).
    inversion Hex as [|? ? Ha Hrest]; subst.
    cbn [flat_map]. rewrite reduce_to_raw_app.
    rewrite (reduce_to_raw_emit_retyped count a a1 Ha Hr).
    rewrite (IH steps' Hrest Hn). reflexivity.
Qed.

(** C8: the reduced form of a normalised sequence (the synthetic entries
    dropped, the keys letter, lname and type kept) holds the aliases that
    were normalised, with "bool" for the type "none"; it can be normalised,
    and normalising, reducing and normalising again gives the same
    sequence as normalising once, which has one synthetic entry for every
    alias of type bool and no more: the second pass adds none. *)
Theorem renormalizing_reduced_sequence (raw0 out0 : list alias) :
  Forall raw_form raw0 ->
  fill_out_aliases raw0 = Ok out0 ->
  exists out,
    fill_out_aliases (reduce_to_raw out0) = Ok out
    /\ fill_out_aliases (reduce_to_raw out) = Ok out
    /\ reduce_to_raw out = reduce_to_raw out0
    /\ reduce_to_raw out0
       = map (fun a =>
                raw_alias (letter a) (lname a)
                  (if String.eqb (type_ a) "none" then "bool" else type_ a))
           raw0
    /\ List.length out
       = List.length (reduce_to_raw out0)
         + List.length
             (filter (fun a => String.eqb (type_ a) "bool")
                (reduce_to_raw out0)).
Proof.
  intros Hraw Hf0.
  assert (Hex : Forall (fun a => expand a = None) raw0)
    by (eapply Forall_impl; [|exact Hraw]; intros a [_ He]; exact He).
  assert (Hpairs : map (fun b => (letter b, lname b)) (reduce_to_raw out0)
                   = map (fun b => (letter b, lname b)) raw0).
  { rewrite reduce_to_raw_pairs.
    pose proof Hf0 as Hf'.
    apply fill_out_aliases_steps in Hf'. destruct Hf' as (steps & Hn & ->).
    eapply originals_of_flat; eassumption. }
  assert (Hnone : Forall (fun a => type_ a <> "none") (reduce_to_raw out0)).
  { apply reduce_to_raw_types.
    pose proof Hf0 as Hf'.
    apply fill_out_aliases_steps in Hf'. destruct Hf' as (steps & Hn & ->).
    eapply normalized_without_none. exact Hn. }
  destruct (fill_out_aliases_ok_of_dupes (reduce_to_raw out0)) as [out Hf].
  { intros a Ha Hc.
    assert (Hin : In (letter a, lname a)
                    (map (fun b => (letter b, lname b)) raw0)).
    { rewrite <- Hpairs.
      apply (in_map (fun b => (letter b, lname b)) _ a Ha). }
    apply in_map_iff in Hin. destruct Hin as (a0 & E & Ha0).
    injection E as El En. rewrite <- En.
    apply (fill_out_aliases_ok_dupes raw0 out0 a0 Hf0 Ha0).
    rewrite El, <- (letter_count_of_pairs _ _ _ Hpairs). exact Hc. }
  exists out. split; [exact Hf|].
  destruct (renormalize_without_none (reduce_to_raw out0) out
              (reduce_to_raw_is_raw out0) Hnone Hf) as [E1 E2].
  split; [exact E2|]. split; [exact E1|]. split.
  - pose proof Hf0 as Hf'.
    apply fill_out_aliases_steps in Hf'. destruct Hf' as (steps & Hn & ->).
    exact (reduce_to_raw_flat_retyped _ raw0 steps Hex Hn).
  - pose proof Hf as Hf'.
    apply fill_out_aliases_steps in Hf'. destruct Hf' as (steps & Hn & ->).
    rewrite (normalize_all_length _ _ steps Hn). apply position_full.
Qed.

Lemma renormalizing_reduced_sequence_witness :
  exists out,
    fill_out_aliases (reduce_to_raw [raw_alias "V" "version" "bool"]) = Ok out
    /\ fill_out_aliases (reduce_to_raw out) = Ok out
    /\ reduce_to_raw out = reduce_to_raw [raw_alias "V" "version" "bool"].
Proof.
  destruct (renormalizing_reduced_sequence
              [raw_alias "V" "version" "none"]
              [raw_alias "V" "version" "bool"])
    as (out & H1 & H2 & H3 & _).
  - repeat constructor.
  - reflexivity.
  - exists out. auto.
Defined.

(** The sequence normalised twice has to be a reduced form: for a raw
    sequence with an alias of type "none", the reduced form of the
    normalised sequence is not the raw sequence (the type is "bool"), and
    normalising it adds a --no-OPTION that normalising the raw sequence did
    not. *)
Lemma renormalizing_none_adds_no_alias :
  fill_out_aliases [raw_alias "V" "version" "none"]
  = Ok [raw_alias "V" "version" "bool"]
  /\ fill_out_aliases (reduce_to_raw [raw_alias "V" "version" "bool"])
     = Ok [raw_alias "V" "version" "bool";
           mkAlias "V" "no-version" "bool" (Some "version") (Some false)]
  /\ ~ renormalizes_to_itself [raw_alias "V" "version" "none"].
Proof.
  split; [reflexivity|]. split; [reflexivity|].
  intros H. specialize (H _ eq_refl). discriminate.
Qed.

(** ** C9: the writers of a key *)

Lemma lnames_of_flat (count : string -> nat) (raw : list alias)
  (steps : list (alias * option alias)) (x : string) :
  normalize_all count raw = Ok steps ->
  In x (map lname (flat_map emit steps)) ->
  exists a,
    In a raw
    /\ (x = lname a \/ (type_ a = "bool" /\ x = "no-" ++ lname a)).
Proof.
  intros Hn Hx. apply in_map_iff in Hx. destruct Hx as (b & <- & Hb).
  destruct (normalize_all_in _ raw steps b Hn Hb) as (a & a1 & Ha & Hr & Hc).
  pose proof (resolved_fields _ a a1 Hr) as (_ & E2 & _).
  exists a. split; [exact Ha|].
  destruct Hc as [->|[Hbool ->]].
  - left. destruct (negate_fields a1) as (_ & G2 & _). now rewrite G2.
  - right. simpl. now rewrite E2.
Qed.

Lemma lnames_nodup_flat (count : string -> nat) (raw : list alias) :
  forall steps,
    normalize_all count raw = Ok steps ->
    NoDup (map lname raw) ->
    (forall a b, In a raw -> In b raw -> type_ a = "bool" ->
                 lname b <> "no-" ++ lname a) ->
    NoDup (map lname (flat_map emit steps)).
Proof.
  induction raw as [|a0 rest IH]; intros steps Hn Hd Hno.
  - injection Hn as <-. constructor.
  - apply normalize_all_cons in Hn.
    destruct Hn as (a1 & steps' & Hr & Hn & ->).
    pose proof (resolved_fields _ a0 a1 Hr) as (_ & E2 & E3 & _).
    inversion Hd as [|? ? Hnin Hd']; subst.
    assert (IHd : NoDup (map lname (flat_map emit steps'))).
    { apply IH; [exact Hn | exact Hd' |].
      intros a b Ha Hb. apply Hno; now right. }
    assert (Hself : ~ In (lname a0) (map lname (flat_map emit steps'))).
    { intros Hin.
      destruct (lnames_of_flat _ rest steps' _ Hn Hin) as (a & Ha & [Hx|[Hb Hx]]).
      - apply Hnin. rewrite Hx. now apply in_map.
      - apply (Hno a a0); [now right | now left | exact Hb | exact Hx]. }
    cbn [flat_map]. rewrite map_app, emit_negate, E3.
    destruct (String.eqb (type_ a0) "bool") eqn:B.
    + apply String.eqb_eq in B. simpl. rewrite E2.
      constructor.
      * intros [Heq|Hin]; [|exact (Hself Hin)].
        symmetry in Heq. exact (no_prefix_neq _ Heq).
      * constructor; [|exact IHd].
        intros Hin.
        destruct (lnames_of_flat _ rest steps' _ Hn Hin)
          as (a & Ha & [Hx|[Hb Hx]]).
        -- apply (Hno a0 a); [now left | now right | exact B | now symmetry].
        -- apply (append_inj_l "no-" (lname a0) (lname a)) in Hx.
           apply Hnin. rewrite Hx. now apply in_map.
    + simpl. destruct (negate_fields a1) as (_ & G2 & _). rewrite G2, E2.
      constructor; assumption.
Qed.

(** C9, as amended: the extracted aliases have distinct lnames; when no
    extracted alias is named "no-" + the lname of an extracted alias of
    type bool, every key of [long_args] has one writer in the normalised
    sequence; a key of [short_args] can have two, since an alias of type
    bool whose letter has one character and the synthetic alias after it
    have the same letter, and both write the same value. *)
Theorem writers_of_keys (lines : list string) (raw out : list alias) :
  parse_aliases lines = Ok raw ->
  fill_out_aliases raw = Ok out ->
  NoDup (map lname raw)
  /\ ((forall a b, In a raw -> In b raw -> type_ a = "bool" ->
                   lname b <> "no-" ++ lname a) ->
      NoDup (map lname out))
  /\ (forall i a,
        nth_error raw i = Some a -> type_ a = "bool" ->
        String.length (letter a) = 1 ->
        exists a' s,
          nth_error out (position raw i) = Some a'
          /\ nth_error out (S (position raw i)) = Some s
          /\ String.length (letter a') = 1
          /\ letter s = letter a'
          /\ short_value s = short_value a').
Proof.
  intros Hp Hf.
  apply parse_aliases_extracted in Hp. destruct Hp as [Hd _].
  split; [exact Hd|]. split.
  - intros Hno.
    pose proof Hf as Hf'.
    apply fill_out_aliases_steps in Hf'. destruct Hf' as (steps & Hn & ->).
    eapply lnames_nodup_flat; eassumption.
  - intros i a Hi Hb Hl.
    destruct (fill_out_aliases_nth raw out i a Hf Hi) as (a1 & Hr & Hpos & Hs).
    pose proof (resolved_fields _ a a1 Hr) as (E1 & _ & E3 & _).
    assert (Hneg : fst (negate a1) = a1).
    { unfold negate. rewrite E3, Hb. reflexivity. }
    rewrite Hneg in Hpos.
    exists a1, (make_no_alias a1).
    split; [exact Hpos|]. split; [auto|].
    split; [now rewrite E1|]. split; reflexivity.
Qed.

Lemma writers_of_keys_witness :
  NoDup (map lname [raw_alias "v" "verbose" "bool"])
  /\ exists a' s,
       nth_error
         [raw_alias "v" "verbose" "bool";
          mkAlias "v" "no-verbose" "bool" (Some "verbose") (Some false)]
         (position [raw_alias "v" "verbose" "bool"] 0) = Some a'
       /\ nth_error
            [raw_alias "v" "verbose" "bool";
             mkAlias "v" "no-verbose" "bool" (Some "verbose") (Some false)]
            (S (position [raw_alias "v" "verbose" "bool"] 0)) = Some s
       /\ String.length (letter a') = 1
       /\ letter s = letter a'
       /\ short_value s = short_value a'.
Proof.
  assert (P : parse_aliases verbose_table = Ok [raw_alias "v" "verbose" "bool"])
    by (vm_compute; reflexivity).
  destruct (writers_of_keys verbose_table
              [raw_alias "v" "verbose" "bool"]
              [raw_alias "v" "verbose" "bool";
               mkAlias "v" "no-verbose" "bool" (Some "verbose") (Some false)]
              P eq_refl)
    as (H1 & _ & H3).
  split; [exact H1|].
  exact (H3 0 (raw_alias "v" "verbose" "bool") eq_refl eq_refl eq_refl).
Defined.

(** C9 as the specification states it fails: for the row of --verbose, of
    type ARG_BOOL, the normalised sequence holds --verbose and
    --no-verbose, and both write the key "v" of [short_args]. *)
Lemma short_key_written_twice :
  parse_aliases verbose_table = Ok [raw_alias "v" "verbose" "bool"]
  /\ fill_out_aliases [raw_alias "v" "verbose" "bool"]
     = Ok [raw_alias "v" "verbose" "bool";
           mkAlias "v" "no-verbose" "bool" (Some "verbose") (Some false)]
  /\ ~ one_writer_per_key
         [raw_alias "v" "verbose" "bool";
          mkAlias "v" "no-verbose" "bool" (Some "verbose") (Some false)].
Proof.
  split; [vm_compute; reflexivity|].
  split; [vm_compute; reflexivity|].
  intros [_ H]. simpl in H.
  inversion H as [|x l Hnin _]. apply Hnin. now left.
Qed.

(** * Further properties of the script *)

(** ** parse_aliases: the region read *)

Lemma skip_to_start_found (pre rest : list string) (s : string) :
  Forall (fun l => Py.contains OPTS_START l = false) pre ->
  Py.contains OPTS_START s = true ->
  skip_to_start (pre ++ s :: rest) = rest.
Proof.
  intros Hpre Hs. induction Hpre as [|l pre Hl Hpre IH]; simpl.
  - now rewrite Hs.
  - now rewrite Hl.
Qed.

Lemma skip_to_start_missing (lines : list string) :
  Forall (fun l => Py.contains OPTS_START l = false) lines ->
  skip_to_start lines = [].
Proof.
  intros H. induction H as [|l lines Hl H IH]; simpl.
  - reflexivity.
  - now rewrite Hl.
Qed.

Lemma parse_rows_stops (body post : list string) (e : string) :
  Py.endswith OPTS_END (Py.strip e) = true ->
  forall d, parse_rows d (body ++ e :: post) = parse_rows d body.
Proof.
  intros He. induction body as [|line body IH]; intros d.
  - cbn [app]. rewrite parse_rows_cons, He. reflexivity.
  - cbn [app]. rewrite !parse_rows_cons.
    destruct (Py.endswith OPTS_END (Py.strip line)); [reflexivity|].
    destruct (negb _); [apply IH|].
    destruct (parse_row (Py.strip line)) as [a|err]; cbn [bind]; [apply IH|].
    reflexivity.
Qed.

(** Only the table is read: the lines up to the first one that holds
    [OPTS_START] and the lines after a line that ends with "};" change
    nothing of what [parse_aliases] returns, error or not. *)
Theorem parse_aliases_reads_table_only
  (pre body post : list string) (s e : string) :
  Forall (fun l => Py.contains OPTS_START l = false) pre ->
  Py.contains OPTS_START s = true ->
  Py.endswith OPTS_END (Py.strip e) = true ->
  parse_aliases (pre ++ s :: body ++ e :: post)
  = (aliases <- parse_rows [] body ;; Ok (values aliases)).
Proof.
  intros Hpre Hs He. unfold parse_aliases.
  rewrite (skip_to_start_found pre _ s Hpre Hs).
  now rewrite (parse_rows_stops body post e He).
Qed.

Lemma parse_aliases_reads_table_only_witness :
  parse_aliases
    (["#include <x.h>" ++ newline]
       ++ ("struct LongShort aliases[]= {" ++ newline)
       :: [table_row "V" "version" "ARG_NONE"]
       ++ ("};" ++ newline) :: [table_row "v" "verbose" "ARG_BOOL"])
  = (aliases <- parse_rows [] [table_row "V" "version" "ARG_NONE"] ;;
     Ok (values aliases)).
Proof.
  apply parse_aliases_reads_table_only.
  - repeat constructor.
  - vm_compute. reflexivity.
  - vm_compute. reflexivity.
Defined.

(** A file with no line that holds [OPTS_START] gives the empty list of
    aliases, not an error: the first loop uses up the file. *)
Theorem parse_aliases_without_table (lines : list string) :
  Forall (fun l => Py.contains OPTS_START l = false) lines ->
  parse_aliases lines = Ok [].
Proof.
  intros H. unfold parse_aliases.
  now rewrite (skip_to_start_missing lines H).
Qed.

Lemma parse_aliases_without_table_witness :
  parse_aliases [table_row "V" "version" "ARG_NONE"; "};" ++ newline] = Ok [].
Proof.
  apply parse_aliases_without_table.
  repeat constructor.
Defined.

(** ** parse_aliases: its errors *)





(** ** parse_aliases: the order of the aliases *)

Lemma keys_dict_set_prefix {V : Type} (k : string) (v : V) (d : dict V) :
  exists extra, keys (dict_set k v d) = (keys d ++ extra)%list.
Proof.
  unfold keys. induction d as [|[k' v'] d [extra IH]]; simpl.
  - exists [k]. reflexivity.
  - destruct (String.eqb k k') eqn:E; simpl.
    + apply String.eqb_eq in E. subst k'. exists []. now rewrite app_nil_r.
    + exists extra. now rewrite IH.
Qed.

Lemma keys_dict_set_present {V : Type} (k : string) (v : V) (d : dict V) :
  In k (keys d) -> keys (dict_set k v d) = keys d.
Proof.
  unfold keys. induction d as [|[k' v'] d IH]; simpl; intros H; [destruct H|].
  destruct (String.eqb k k') eqn:E; simpl.
  - apply String.eqb_eq in E. now subst k'.
  - destruct H as [H|H].
    + subst k'. now rewrite String.eqb_refl in E.
    + now rewrite IH.
Qed.

Lemma keys_dict_set_absent {V : Type} (k : string) (v : V) (d : dict V) :
  ~ In k (keys d) -> keys (dict_set k v d) = (keys d ++ [k])%list.
Proof.
  unfold keys. induction d as [|[k' v'] d IH]; simpl; intros H; [reflexivity|].
  destruct (String.eqb k k') eqn:E; simpl.
  - apply String.eqb_eq in E. subst k'. exfalso. apply H. now left.
  - rewrite IH; [reflexivity|]. intros Hin. apply H. now right.
Qed.

Lemma parse_rows_keys_prefix (lines : list string) :
  forall d d',
    parse_rows d lines = Ok d' ->
    exists extra, keys d' = (keys d ++ extra)%list.
Proof.
  induction lines as [|line rest IH]; intros d d' H.
  - injection H as <-. exists []. now rewrite app_nil_r.
  - rewrite parse_rows_cons in H.
    destruct (Py.endswith OPTS_END _).
    + injection H as <-. exists []. now rewrite app_nil_r.
    + destruct (negb _); [now apply IH|].
      destruct (parse_row _) as [a|e] eqn:R; cbn [bind] in H;
        [|discriminate].
      destruct (IH _ _ H) as [extra2 E2].
      destruct (keys_dict_set_prefix (lname a) a d) as [extra1 E1].
      exists (extra1 ++ extra2)%list.
      now rewrite E2, E1, app_assoc.
Qed.

Lemma parse_rows_app_open (lines rest : list string) :
  Forall (fun l => ends_table l = false) lines ->
  forall d,
    parse_rows d (lines ++ rest)
    = (d1 <- parse_rows d lines ;; parse_rows d1 rest).
Proof.
  intros Hopen. induction Hopen as [|l lines Hl Hopen IH]; intros d.
  - reflexivity.
  - cbn [app]. rewrite !parse_rows_cons.
    unfold ends_table in Hl. rewrite Hl.
    destruct (negb _); [apply IH|].
    destruct (parse_row (Py.strip l)) as [a|e]; cbn [bind]; [apply IH|].
    reflexivity.
Qed.

(** The aliases keep the order in which their lnames were first seen, and
    the record read last: a row read while the table is open puts its
    record under its lname and leaves the other records as they are; when
    the lname was seen before, the keys and their order do not change (the
    record is replaced in place), and else the lname comes at the end;
    whatever is read after that never moves or removes a key. *)
Theorem parse_rows_keeps_first_seen_order
  (lines : list string) (line : string) (d d1 : dict alias) (a : alias) :
  Forall (fun l => ends_table l = false) lines ->
  parse_rows d lines = Ok d1 ->
  ends_table line = false ->
  is_row line = true ->
  parse_row (Py.strip line) = Ok a ->
  exists d',
    parse_rows d (lines ++ [line]) = Ok d'
    /\ dict_get (lname a) d' = Some a
    /\ (forall k, k <> lname a -> dict_get k d' = dict_get k d1)
    /\ (In (lname a) (keys d1) -> keys d' = keys d1)
    /\ (~ In (lname a) (keys d1) -> keys d' = (keys d1 ++ [lname a])%list)
    /\ (forall more d'',
          parse_rows d' more = Ok d'' ->
          exists extra, keys d'' = (keys d' ++ extra)%list).
Proof.
  intros Hopen H1 Hend Hrow Hr.
  exists (dict_set (lname a) a d1).
  split.
  - rewrite (parse_rows_app_open lines [line] Hopen), H1. cbn [bind].
    rewrite parse_rows_cons.
    unfold ends_table in Hend. unfold is_row in Hrow.
    rewrite Hend, Hrow, Hr. reflexivity.
  - split; [apply dict_get_set_same|].
    split; [intros k Hk; now apply dict_get_set_other|].
    split; [apply keys_dict_set_present|].
    split; [apply keys_dict_set_absent|].
    intros more d'' Hm. eapply parse_rows_keys_prefix. exact Hm.
Qed.

Lemma parse_rows_keeps_first_seen_order_witness :
  exists d',
    parse_rows []
      ([table_row "v" "verbose" "ARG_BOOL";
        table_row "V" "version" "ARG_NONE"]
         ++ [table_row "v" "verbose" "ARG_NONE"]) = Ok d'
    /\ dict_get "verbose" d' = Some (raw_alias "v" "verbose" "none")
    /\ keys d' = ["verbose"; "version"].
Proof.
  destruct (parse_rows_keeps_first_seen_order
              [table_row "v" "verbose" "ARG_BOOL";
               table_row "V" "version" "ARG_NONE"]
              (table_row "v" "verbose" "ARG_NONE")
              []
              [("verbose", raw_alias "v" "verbose" "bool");
               ("version", raw_alias "V" "version" "none")]
              (raw_alias "v" "verbose" "none"))
    as (d' & H1 & H2 & _ & H4 & _).
  - repeat constructor.
  - vm_compute. reflexivity.
  - vm_compute. reflexivity.
  - vm_compute. reflexivity.
  - vm_compute. reflexivity.
  - exists d'. split; [exact H1|]. split; [exact H2|].
    apply H4. simpl. now left.
Defined.

(** ** fill_out_aliases: the insertions *)

(** The two loops of [fill_out_aliases], the second one inserting the
    [i]-th --no-OPTION at index [insert_idx + i + 1], give what mapping
    every alias to itself, followed by its --no-OPTION if it has one, and
    flattening gives; the first KeyError, if any, is the error. *)
Theorem fill_out_aliases_is_flat_map (aliases : list alias) :
  fill_out_aliases aliases
  = (steps <- normalize_all (letter_count aliases) aliases ;;
     Ok (flat_map emit steps)).
Proof.
  exact (fill_out_aliases_flat aliases).
Qed.

(** The normalised sequence has one entry for every alias and one more for
    every alias of type bool. *)
Theorem fill_out_aliases_length (raw out : list alias) :
  fill_out_aliases raw = Ok out ->
  List.length out
  = List.length raw
    + List.length (filter (fun a => String.eqb (type_ a) "bool") raw).
Proof.
  intros Hf. apply fill_out_aliases_steps in Hf.
  destruct Hf as (steps & Hn & ->).
  rewrite (normalize_all_length _ raw steps Hn). apply position_full.
Qed.

Lemma fill_out_aliases_length_witness :
  List.length
    [mkAlias "Fa" "ftp-ssl" "bool" (Some "ssl") None;
     mkAlias "Fa" "no-ftp-ssl" "bool" (Some "ssl") (Some false);
     raw_alias "Fa" "ssl" "bool";
     mkAlias "Fa" "no-ssl" "bool" (Some "ssl") (Some false)]
  = List.length ssl_rows
    + List.length (filter (fun a => String.eqb (type_ a) "bool") ssl_rows).
Proof.
  apply (fill_out_aliases_length ssl_rows). reflexivity.
Defined.

(** ** fill_out_aliases: when it fails *)

(** Normalisation succeeds exactly when every alias whose letter is used
    more than once has its lname in DUPES. *)
Theorem fill_out_aliases_succeeds_iff (raw : list alias) :
  (exists out, fill_out_aliases raw = Ok out)
  <-> (forall a, In a raw -> 1 < letter_count raw (letter a) ->
                 dict_get (lname a) DUPES <> None).
Proof.
  split.
  - intros [out Hf] a Ha Hc Hd.
    apply In_nth_error in Ha. destruct Ha as [i Hi].
    destruct (fill_out_aliases_nth raw out i a Hf Hi) as (a1 & Hr & _).
    destruct (strip_negation_fields a) as (S1 & S2 & _).
    unfold resolve_dupe in Hr. rewrite S1, S2, Hd in Hr.
    apply Nat.ltb_lt in Hc. rewrite Hc in Hr. discriminate.
  - intros H.
    destruct (fill_out_aliases raw) as [out|e] eqn:Hf; [eauto|].
    exfalso.
    rewrite fill_out_aliases_flat in Hf.
    destruct (normalize_all _ _) as [steps|e'] eqn:Hn; cbn [bind] in Hf;
      [discriminate|].
    destruct (normalize_all_error _ raw e' Hn) as (b & Hb & _ & H1 & H2).
    exact (H b Hb H1 H2).
Qed.

Lemma normalize_all_unshared (count : string -> nat) (raw : list alias) :
  (forall a, In a raw -> count (letter a) <= 1) ->
  normalize_all count raw
  = Ok (map (fun a => negate (strip_negation a)) raw).
Proof.
  induction raw as [|a rest IH]; intros H; [reflexivity|].
  cbn [normalize_all map]. unfold normalize_one.
  destruct (strip_negation_fields a) as (S1 & _).
  rewrite resolve_dupe_unshared by (rewrite S1; apply H; now left).
  cbn [bind]. rewrite IH by (intros b Hb; apply H; now right).
  reflexivity.
Qed.

Lemma letter_count_nodup (raw : list alias) (l : string) :
  NoDup (map letter raw) -> letter_count raw l <= 1.
Proof.
  intros H. unfold letter_count.
  apply (proj1 (NoDup_count_occ string_dec (map letter raw)) H).
Qed.

(** When no two aliases have the same letter, normalisation cannot fail
    and does not read DUPES: every alias gets its name from its own lname
    alone and is followed by its --no-OPTION if its type is bool. *)
Theorem fill_out_aliases_distinct_letters (raw : list alias) :
  NoDup (map letter raw) ->
  fill_out_aliases raw
  = Ok (flat_map (fun a => emit (negate (strip_negation a))) raw).
Proof.
  intros Hd. rewrite fill_out_aliases_flat.
  rewrite normalize_all_unshared
    by (intros a _; now apply letter_count_nodup).
  cbn [bind]. f_equal.
  induction raw as [|a rest IH]; [reflexivity|].
  inversion Hd as [|? ? _ Hd']; subst.
  cbn [map flat_map]. now rewrite IH.
Qed.

Lemma fill_out_aliases_distinct_letters_witness :
  fill_out_aliases
    [raw_alias "N" "no-buffer" "bool"; raw_alias "o" "output" "string"]
  = Ok (flat_map (fun a => emit (negate (strip_negation a)))
          [raw_alias "N" "no-buffer" "bool"; raw_alias "o" "output" "string"]).
Proof.
  apply fill_out_aliases_distinct_letters.
  repeat constructor; simpl; intuition discriminate.
Defined.

(** ** fill_out_aliases: what it keeps *)

(** Normalisation keeps the aliases it was given, in their order, with
    their letters and lnames: the entries of the normalised sequence that
    have no expand key are these. *)
Theorem fill_out_aliases_keeps_originals (raw out : list alias) :
  Forall (fun a => expand a = None) raw ->
  fill_out_aliases raw = Ok out ->
  map (fun b => (letter b, lname b)) (filter is_original out)
  = map (fun a => (letter a, lname a)) raw.
Proof.
  intros Hex Hf. apply fill_out_aliases_steps in Hf.
  destruct Hf as (steps & Hn & ->).
  eapply originals_of_flat; eassumption.
Qed.

Lemma fill_out_aliases_keeps_originals_witness :
  map (fun b => (letter b, lname b))
    (filter is_original
       [mkAlias "Fa" "ftp-ssl" "bool" (Some "ssl") None;
        mkAlias "Fa" "no-ftp-ssl" "bool" (Some "ssl") (Some false);
        raw_alias "Fa" "ssl" "bool";
        mkAlias "Fa" "no-ssl" "bool" (Some "ssl") (Some false)])
  = map (fun a => (letter a, lname a)) ssl_rows.
Proof.
  apply (fill_out_aliases_keeps_originals ssl_rows).
  - repeat constructor.
  - reflexivity.
Defined.

(** ** split: the long options *)

Lemma dict_set_fresh {V : Type} (k : string) (v : V) (d : dict V) :
  ~ In k (keys d) -> dict_set k v d = (d ++ [(k, v)])%list.
Proof.
  unfold keys. induction d as [|[k' v'] d IH]; simpl; intros Hn.
  - reflexivity.
  - destruct (String.eqb k k') eqn:E.
    + apply String.eqb_eq in E. subst k'. exfalso. apply Hn. now left.
    + rewrite IH; [reflexivity|]. intros Hin. apply Hn. now right.
Qed.

Lemma split_step_long (acc : dict (dict value) * dict string) (a : alias) :
  fst (split_step acc a) = dict_set (lname a) (long_value a) (fst acc).
Proof.
  unfold split_step. destruct (Nat.eqb _ 1); reflexivity.
Qed.

Lemma long_value_shape (a : alias) :
  long_value a
  = (("type", VStr (type_ a))
       :: match name a with Some n => [("name", VStr n)] | None => [] end
       ++ match expand a with Some b => [("expand", VBool b)] | None => [] end)%list.
Proof.
  unfold long_value, items.
  destruct (name a), (expand a); reflexivity.
Qed.

(** For a sequence with distinct lnames, [long_args] has one entry per
    alias, in the order of the sequence, whose value holds the type, then
    the name and expand of the alias when it has them, and never its letter
    or lname. *)
Theorem split_long_args (aliases : list alias) :
  NoDup (map lname aliases) ->
  fst (split aliases)
  = map (fun a =>
           (lname a,
            (("type", VStr (type_ a))
               :: match name a with
                  | Some n => [("name", VStr n)]
                  | None => []
                  end
               ++ match expand a with
                  | Some b => [("expand", VBool b)]
                  | None => []
                  end)%list))
      aliases.
Proof.
  induction aliases as [|a aliases IH] using rev_ind; intros Hd.
  - reflexivity.
  - rewrite map_app in Hd. apply NoDup_remove in Hd.
    rewrite app_nil_r in Hd. destruct Hd as [Hd Hnin].
    rewrite split_snoc, split_step_long, (IH Hd), map_app.
    cbn [map]. rewrite <- long_value_shape.
    apply dict_set_fresh.
    unfold keys. rewrite map_map. cbn [fst].
    intros Hin. apply Hnin. exact Hin.
Qed.

Lemma split_long_args_witness :
  fst (split [raw_alias "v" "verbose" "bool";
              mkAlias "v" "no-verbose" "bool" (Some "verbose") (Some false)])
  = [("verbose", [("type", VStr "bool")]);
     ("no-verbose",
      [("type", VStr "bool"); ("name", VStr "verbose");
       ("expand", VBool false)])].
Proof.
  apply (split_long_args
           [raw_alias "v" "verbose" "bool";
            mkAlias "v" "no-verbose" "bool" (Some "verbose") (Some false)]).
  repeat constructor; simpl; intuition discriminate.
Defined.

(** ** split: the keys of the short options *)

Lemma fold_split_short_in (aliases : list alias) (k : string) :
  forall acc,
    In k (keys (snd (fold_left split_step aliases acc)))
    <-> In k (keys (snd acc))
        \/ exists a, In a aliases /\ letter a = k /\ String.length k = 1.
Proof.
  induction aliases as [|a aliases IH]; intros acc; cbn [fold_left].
  - split; [auto|]. intros [H|(a & [] & _)]. exact H.
  - rewrite IH. unfold split_step.
    destruct (Nat.eqb (String.length (letter a)) 1) eqn:E; cbn [snd].
    + apply Nat.eqb_eq in E. rewrite keys_dict_set_in. split.
      * intros [[->|H]|(b & Hb & Hl & Hk)].
        -- right. exists a. split; [now left | auto].
        -- now left.
        -- right. exists b. split; [now right | auto].
      * intros [H|(b & [<-|Hb] & Hl & Hk)].
        -- left. now right.
        -- left. left. now symmetry.
        -- right. exists b. auto.
    + apply Nat.eqb_neq in E. split.
      * intros [H|(b & Hb & Hl & Hk)]; [now left|].
        right. exists b. split; [now right | auto].
      * intros [H|(b & [<-|Hb] & Hl & Hk)]; [now left | |].
        -- exfalso. apply E. now rewrite Hl.
        -- right. exists b. auto.
Qed.

(** The keys of [short_args] are the letters of one character of the
    aliases of the sequence, and nothing else. *)
Theorem split_short_keys (aliases : list alias) (k : string) :
  In k (keys (snd (split aliases)))
  <-> exists a, In a aliases /\ letter a = k /\ String.length k = 1.
Proof.
  unfold split. rewrite fold_split_short_in. cbn [snd keys map].
  split; [intros [[]|H]; exact H | auto].
Qed.

Lemma split_short_keys_witness :
  exists a,
    In a [raw_alias "v" "verbose" "bool"; raw_alias "Fa" "ssl" "bool"]
    /\ letter a = "v" /\ String.length "v" = 1.
Proof.
  apply (proj1 (split_short_keys
                  [raw_alias "v" "verbose" "bool"; raw_alias "Fa" "ssl" "bool"]
                  "v")).
  simpl. now left.
Defined.

(** ** format_as_js: the line of a long option *)

(** The line written for a long option holds the lname as [repr] gives it,
    then, in braces, the type, the name and expand of the alias, with keys
    that are never quoted and false written as a bare word. *)
Theorem format_long_option_line
  (py_repr : string -> string) (k : string) (a : alias) :
  format_opt py_repr k (ODict (long_value a))
  = tab ++ tab ++ py_repr k ++ ": {type: " ++ py_repr (type_ a)
    ++ match name a with
       | Some n => ", name: " ++ py_repr n
       | None => EmptyString
       end
    ++ match expand a with
       | Some true => ", expand: true"
       | Some false => ", expand: false"
       | None => EmptyString
       end
    ++ "},".
Proof.
  rewrite long_value_shape. unfold format_opt.
  destruct (name a) as [n|], (expand a) as [[|]|]; cbn;
    repeat (rewrite ?append_assoc; cbn); reflexivity.
Qed.

(** ** The rewriting of the output file: markers *)

Lemma copy_to_start_none (f : list string) :
  copy_to_start f = None ->
  Forall (fun l => Py.contains JS_PARAMS_START l = false) f.
Proof.
  induction f as [|line rest IH]; simpl; intros H; [constructor|].
  destruct (Py.contains JS_PARAMS_START line) eqn:C; [discriminate|].
  destruct (copy_to_start rest) as [[copied rest']|]; [discriminate|].
  constructor; auto.
Qed.

Lemma copy_to_start_some (f copied rest : list string) :
  copy_to_start f = Some (copied, rest) ->
  exists A s,
    copied = (A ++ [s])%list /\ f = (A ++ s :: rest)%list
    /\ Forall (fun l => Py.contains JS_PARAMS_START l = false) A
    /\ Py.contains JS_PARAMS_START s = true.
Proof.
  revert copied rest.
  induction f as [|line f IH]; simpl; intros copied rest H; [discriminate|].
  destruct (Py.contains JS_PARAMS_START line) eqn:C.
  - injection H as <- <-. exists [], line. repeat split; auto.
  - destruct (copy_to_start f) as [[copied' rest']|]; [|discriminate].
    injection H as <- <-.
    destruct (IH copied' rest' eq_refl) as (A & s & -> & -> & HA & Hs).
    exists (line :: A), s. repeat split; auto.
Qed.

Lemma skip_to_end_none (f : list string) :
  skip_to_end f = None ->
  Forall (fun l => Py.contains JS_PARAMS_END l = false) f.
Proof.
  induction f as [|line rest IH]; simpl; intros H; [constructor|].
  destruct (Py.contains JS_PARAMS_END line) eqn:C; [discriminate|].
  constructor; auto.
Qed.

Lemma skip_to_end_some (f rest : list string) (e : string) :
  skip_to_end f = Some (e, rest) ->
  exists X,
    f = (X ++ e :: rest)%list
    /\ Forall (fun l => Py.contains JS_PARAMS_END l = false) X
    /\ Py.contains JS_PARAMS_END e = true.
Proof.
  induction f as [|line f IH]; simpl; intros H; [discriminate|].
  destruct (Py.contains JS_PARAMS_END line) eqn:C.
  - injection H as <- <-. exists []. repeat split; auto.
  - destruct (IH H) as (X & -> & HX & He).
    exists (line :: X). repeat split; auto.
Qed.

(** What the rewriting does with any output file: without a line that
    holds the BEGIN marker it fails with the first error; with one, but
    without a line that holds the END marker after it (an END marker
    before or on the line of the BEGIN marker does not count), it fails
    with the second; else it keeps the lines up to the first BEGIN line,
    puts the generated lines with their newlines, and keeps the lines from
    the first END line after it. *)
Theorem splice_cases (params_lines f : list string) :
  match splice params_lines f with
  | Err err =>
      (err = ValueError_start
       /\ Forall (fun l => Py.contains JS_PARAMS_START l = false) f)
      \/ (err = ValueError_end
          /\ exists A s rest,
               f = (A ++ s :: rest)%list
               /\ Forall (fun l => Py.contains JS_PARAMS_START l = false) A
               /\ Py.contains JS_PARAMS_START s = true
               /\ Forall (fun l => Py.contains JS_PARAMS_END l = false) rest)
  | Ok new_lines =>
      exists A s X e B,
        f = (A ++ s :: X ++ e :: B)%list
        /\ Forall (fun l => Py.contains JS_PARAMS_START l = false) A
        /\ Py.contains JS_PARAMS_START s = true
        /\ Forall (fun l => Py.contains JS_PARAMS_END l = false) X
        /\ Py.contains JS_PARAMS_END e = true
        /\ new_lines
           = (A ++ s :: map (fun l => (l ++ newline)%string) params_lines
                ++ e :: B)%list
  end.
Proof.
  unfold splice.
  destruct (copy_to_start f) as [[copied f1]|] eqn:C.
  - destruct (copy_to_start_some _ _ _ C) as (A & s & -> & -> & HA & Hs).
    destruct (skip_to_end f1) as [[e f2]|] eqn:K.
    + destruct (skip_to_end_some _ _ _ K) as (X & -> & HX & He).
      exists A, s, X, e, f2. repeat split; auto.
      now rewrite <- app_assoc.
    + right. split; [reflexivity|].
      exists A, s, f1. repeat split; auto.
      now apply skip_to_end_none.
  - left. split; [reflexivity|]. now apply copy_to_start_none.
Qed.

(** Running the rewriting again on what it wrote, with the same generated
    lines, writes the same lines: provided no generated line holds the END
    marker, the old tables are replaced and nothing else moves. *)
Theorem splice_twice (params_lines f new_lines : list string) :
  Forall no_end_marker params_lines ->
  splice params_lines f = Ok new_lines ->
  splice params_lines new_lines = Ok new_lines.
Proof.
  intros Hgen Hs.
  pose proof (splice_cases params_lines f) as H. rewrite Hs in H.
  destruct H as (A & s & X & e & B & _ & HA & Hst & _ & He & ->).
  apply splice_found; auto.
  clear -Hgen. induction Hgen as [|l ls Hl _ IH]; constructor; auto.
Qed.

Lemma splice_twice_witness :
  splice ["var x;"] [js_begin; js_stale; js_end]
  = Ok [js_begin; "var x;" ++ newline; js_end]
  /\ splice ["var x;"] [js_begin; "var x;" ++ newline; js_end]
     = Ok [js_begin; "var x;" ++ newline; js_end].
Proof.
  assert (H : splice ["var x;"] [js_begin; js_stale; js_end]
              = Ok [js_begin; "var x;" ++ newline; js_end])
    by (vm_compute; reflexivity).
  split; [exact H|].
  apply (splice_twice ["var x;"] [js_begin; js_stale; js_end]).
  - constructor; [vm_compute; reflexivity | constructor].
  - exact H.
Defined.

(** ** parse_aliases: the comment after a row *)

Lemma split_go_without_sep (sep l : string) :
  forall cur,
    Py.contains sep l = false ->
    Py.split_go sep 0 cur l = [cur ++ l].
Proof.
  induction l as [|x l IH]; intros cur H.
  - cbn [Py.split_go]. now rewrite append_nil_r.
  - cbn [Py.contains] in H. apply orb_false_iff in H. destruct H as [Hp Hc].
    cbn [Py.split_go]. rewrite Hp, (IH _ Hc), append_assoc. reflexivity.
Qed.

Lemma prefix_comment_later (x : ascii) (l rest : string) :
  String.prefix "/*" (String x l) = false ->
  String.prefix "/*" (String x (l ++ "/*" ++ rest)) = false.
Proof.
  cbn [String.prefix].
  destruct (ascii_dec "/" x) as [_|]; [|reflexivity].
  destruct l as [|y l]; cbn [String.append String.prefix].
  - intros _. reflexivity.
  - destruct (ascii_dec "*" y); [|reflexivity].
    destruct l; discriminate.
Qed.

Lemma split_go_before_comment (l rest : string) :
  forall cur,
    Py.contains "/*" l = false ->
    hd EmptyString (Py.split_go "/*" 0 cur (l ++ "/*" ++ rest)) = cur ++ l.
Proof.
  induction l as [|x l IH]; intros cur H.
  - destruct rest; cbn; now rewrite append_nil_r.
  - cbn [Py.contains] in H. apply orb_false_iff in H. destruct H as [Hp Hc].
    change (String x l ++ "/*" ++ rest) with (String x (l ++ "/*" ++ rest)).
    cbn [Py.split_go]. rewrite (prefix_comment_later x l rest Hp).
    rewrite (IH _ Hc), append_assoc. reflexivity.
Qed.

(** A comment after a row is not read: a row followed by "/*" and
    anything gives what the row alone gives, alias or error. *)
Theorem parse_row_ignores_comment (row comment : string) :
  Py.contains "/*" row = false ->
  parse_row (row ++ "/*" ++ comment) = parse_row row.
Proof.
  intros H.
  assert (H1 : hd EmptyString (Py.split "/*" (row ++ "/*" ++ comment)) = row)
    by (exact (split_go_before_comment row comment EmptyString H)).
  assert (H2 : hd EmptyString (Py.split "/*" row) = row)
    by (unfold Py.split;
        now rewrite (split_go_without_sep "/*" row EmptyString H)).
  unfold parse_row. rewrite H1, H2. reflexivity.
Qed.

Lemma parse_row_ignores_comment_witness :
  parse_row (("{" ++ quote_char ++ "o" ++ quote_char ++ ", "
                  ++ quote_char ++ "output" ++ quote_char ++ ", ARG_FILENAME},")
               ++ "/*" ++ " write to file, not stdout */")
  = parse_row ("{" ++ quote_char ++ "o" ++ quote_char ++ ", "
                   ++ quote_char ++ "output" ++ quote_char ++ ", ARG_FILENAME},").
Proof.
  apply parse_row_ignores_comment.
  vm_compute. reflexivity.
Defined.

(** ** parse_aliases: the records *)

(** Every record that the extractor returns has the three keys letter,
    lname and type only, with as type one of "bool", "none" and "string". *)
Theorem parse_aliases_records (lines : list string) (raw : list alias) :
  parse_aliases lines = Ok raw ->
  Forall (fun a =>
            name a = None /\ expand a = None
            /\ (type_ a = "bool" \/ type_ a = "none" \/ type_ a = "string"))
    raw.
Proof.
  intros H. apply parse_aliases_extracted in H. destruct H as [_ H].
  eapply Forall_impl; [|exact H].
  intros a [Ht [Hn He]]. auto.
Qed.

Lemma parse_aliases_records_witness :
  Forall (fun a =>
            name a = None /\ expand a = None
            /\ (type_ a = "bool" \/ type_ a = "none" \/ type_ a = "string"))
    [raw_alias "V" "version" "none"].
Proof.
  apply (parse_aliases_records version_table).
  vm_compute. reflexivity.
Defined.

(** ** fill_out_aliases: the options that take a value *)

(** An alias whose type is neither bool nor none and whose letter no other
    alias uses goes through normalisation unchanged, whatever its lname
    starts with. *)
Theorem fill_out_aliases_keeps_string_alias
  (raw out : list alias) (i : nat) (a : alias) :
  fill_out_aliases raw = Ok out ->
  nth_error raw i = Some a ->
  type_ a <> "bool" -> type_ a <> "none" ->
  letter_count raw (letter a) <= 1 ->
  nth_error out (position raw i) = Some a.
Proof.
  intros Hf Hi Hb Hn Hc.
  destruct (fill_out_aliases_nth raw out i a Hf Hi) as (a1 & Hr & Hp & _).
  assert (Hs : strip_negation a = a).
  { unfold strip_negation, Py.mem, BOOL_TYPES. cbn [existsb].
    apply String.eqb_neq in Hb. apply String.eqb_neq in Hn.
    now rewrite Hb, Hn. }
  rewrite Hs, resolve_dupe_unshared in Hr by exact Hc.
  injection Hr as <-.
  rewrite Hp. f_equal. unfold negate.
  apply String.eqb_neq in Hb. apply String.eqb_neq in Hn.
  now rewrite Hb, Hn.
Qed.

Lemma fill_out_aliases_keeps_string_alias_witness :
  nth_error [raw_alias "no" "noproxy" "string"]
    (position [raw_alias "no" "noproxy" "string"] 0)
  = Some (raw_alias "no" "noproxy" "string").
Proof.
  apply (fill_out_aliases_keeps_string_alias
           [raw_alias "no" "noproxy" "string"]
           [raw_alias "no" "noproxy" "string"] 0).
  - reflexivity.
  - reflexivity.
  - discriminate.
  - discriminate.
  - apply le_n.
Defined.

(** ** split: looking up a long option *)

Lemma fold_split_long_other (post : list alias) (k : string) :
  forall acc,
    (forall b, In b post -> lname b <> k) ->
    dict_get k (fst (fold_left split_step post acc)) = dict_get k (fst acc).
Proof.
  induction post as [|b post IH]; intros acc Hp; cbn [fold_left];
    [reflexivity|].
  rewrite IH by (intros c Hc; apply Hp; now right).
  rewrite split_step_long.
  apply dict_get_set_other. intros E. apply (Hp b); [now left | now symmetry].
Qed.

(** The value of a long option is the one of the last alias of the
    sequence with that lname; an lname that no alias has is not a key. *)
Theorem split_long_lookup (aliases pre post : list alias) (a : alias) :
  aliases = (pre ++ a :: post)%list ->
  (forall b, In b post -> lname b <> lname a) ->
  dict_get (lname a) (fst (split aliases)) = Some (long_value a)
  /\ (forall k, (forall b, In b aliases -> lname b <> k) ->
                dict_get k (fst (split aliases)) = None).
Proof.
  intros -> Hpost. split.
  - replace (pre ++ a :: post)%list with ((pre ++ [a]) ++ post)%list
      by (now rewrite <- app_assoc).
    unfold split. rewrite fold_left_app.
    rewrite fold_split_long_other by exact Hpost.
    fold (split (pre ++ [a])).
    rewrite split_snoc, split_step_long.
    apply dict_get_set_same.
  - intros k Hk. unfold split.
    rewrite fold_split_long_other by exact Hk. reflexivity.
Qed.

Lemma split_long_lookup_witness :
  dict_get "ssl"
    (fst (split [raw_alias "Fa" "ssl" "string"; raw_alias "Fa" "ssl" "bool"]))
  = Some (long_value (raw_alias "Fa" "ssl" "bool")).
Proof.
  apply (split_long_lookup
           [raw_alias "Fa" "ssl" "string"; raw_alias "Fa" "ssl" "bool"]
           [raw_alias "Fa" "ssl" "string"] []
           (raw_alias "Fa" "ssl" "bool") eq_refl).
  intros b [].
Defined.
